(** * Presentation of modular newform records

    A shallow embedding of
    [lmfdb/modular_forms/elliptic_modular_forms/web_newform.py]:
    label validation, the dimension grid, the q-expansion formatter and the
    construction of a [WebNewform] from rows of the data store.

    Python integers are unbounded, so they are [Z]; Python [str] is [string];
    a [dict] with string keys is a [gmap string _]; an exception raised by the
    code is a value of [exn] carried by [result]. *)

From stdpp Require Import gmap strings list fin_maps pretty.
From Stdlib Require Import ZArith Ascii.

Open Scope Z_scope.
Open Scope string_scope.

(** ** Exceptions and results *)

Inductive exn :=
| ValueError (msg : string)
| KeyError (key : string)
| AttributeError (name : string)
| TypeError
| IndexError.

Inductive result (A : Type) :=
| Ok (a : A)
| Raise (e : exn).
Arguments Ok {A} a.
Arguments Raise {A} e.

(** Sequencing: the first exception raised aborts what follows. *)
#[global] Instance result_ret : MRet result := fun _ a => Ok a.
#[global] Instance result_bind : MBind result := fun _ _ k r =>
  match r with
  | Ok a => k a
  | Raise e => Raise e
  end.

(** [d[k]] on a dictionary: [KeyError] when the key is absent. *)
Definition getitem {V} (d : gmap string V) (k : string) : result V :=
  match d !! k with
  | Some v => Ok v
  | None => Raise (KeyError k)
  end.

(** A [for] loop whose body may raise, threading the loop state. *)
Fixpoint for_each {A S} (xs : list A) (body : S → A → result S) (s : S)
  : result S :=
  match xs with
  | [] => Ok s
  | x :: xs' => s' ← body s x; for_each xs' body s'
  end.

(** [str(n)] for an integer. *)
Definition str_int (n : Z) : string := pretty n.

(** The line feed, which has no escape inside a string of this file. *)
Definition newline : string := String "010"%char "".

(** ** Label validation

    [LABEL_RE = re.compile(r"^[0-9]+\.[0-9]+\.[a-z]+\.[a-z]+$")].  The pattern
    is a sequence of the atoms below.  [re.match] tries the pattern at
    position 0 only and accepts any remainder after the last atom. *)

Inductive atom :=
| Caret                  (* ^ : only at position 0 (no MULTILINE flag) *)
| Lit (c : ascii)        (* \. : that character *)
| Plus (lo hi : ascii)   (* [lo-hi]+ : one or more, greedy, backtracking *)
| Dollar.                (* $ : at the end, or just before a final line feed *)

Definition in_range (lo hi c : ascii) : bool :=
  (N.leb (N_of_ascii lo) (N_of_ascii c)) && (N.leb (N_of_ascii c) (N_of_ascii hi)).

(** [p+] followed by the continuation [k]: the longer run is tried first. *)
Fixpoint plus_run (p : ascii → bool) (k : string → bool) (s : string) : bool :=
  match s with
  | EmptyString => false
  | String c s' => p c && (plus_run p k s' || k s')
  end.

Definition at_dollar (s : string) : bool :=
  bool_decide (s = "") || bool_decide (s = newline).

Fixpoint match_at (r : list atom) (start : bool) : string → bool :=
  match r with
  | [] => fun _ => true
  | Caret :: r' => fun s => start && match_at r' start s
  | Lit c :: r' => fun s =>
      match s with
      | String a s' => bool_decide (a = c) && match_at r' false s'
      | EmptyString => false
      end
  | Plus lo hi :: r' => plus_run (in_range lo hi) (match_at r' false)
  | Dollar :: r' => fun s => at_dollar s && match_at r' start s
  end.

Definition re_match (r : list atom) (s : string) : bool := match_at r true s.

Definition LABEL_RE : list atom :=
  [Caret; Plus "0" "9"; Lit "."; Plus "0" "9"; Lit ".";
   Plus "a" "z"; Lit "."; Plus "a" "z"; Dollar].

Definition valid_label (label : string) : bool := re_match LABEL_RE label.

(** The format of section 4.2, in the spec's words: four dot-separated parts,
    integer, integer, lowercase-letter run, lowercase-letter run. *)

Fixpoint all_chars (p : ascii → bool) (s : string) : bool :=
  match s with
  | EmptyString => true
  | String c s' => p c && all_chars p s'
  end.

Definition run_of (p : ascii → bool) (s : string) : Prop :=
  s ≠ "" ∧ all_chars p s = true.

Definition is_digit : ascii → bool := in_range "0" "9".
Definition is_lower : ascii → bool := in_range "a" "z".

Definition four_part (s : string) : Prop :=
  ∃ a b c d : string,
    run_of is_digit a ∧ run_of is_digit b ∧
    run_of is_lower c ∧ run_of is_lower d ∧
    s = a +:+ "." +:+ b +:+ "." +:+ c +:+ "." +:+ d.

(** ** Column values

    The values a row of the store holds in the columns read here: NULL, a
    boolean, an integer, a text, a list of integers. *)

Inductive value :=
| VNone
| VBool (b : bool)
| VInt (z : Z)
| VStr (s : string)
| VInts (l : list Z).

#[global] Instance value_eq_dec : EqDecision value.
Proof. solve_decision. Defined.

(** Truth of a value in a condition. *)
Definition truthy (v : value) : bool :=
  match v with
  | VNone => false
  | VBool b => b
  | VInt z => negb (Z.eqb z 0)
  | VStr s => negb (String.eqb s "")
  | VInts l => negb (bool_decide (l = []))
  end.

(** ['%s' % v] and [str(v)]. *)
Definition str_list (l : list Z) : string :=
  "[" +:+ String.concat ", " (map str_int l) +:+ "]".

Definition py_str (v : value) : string :=
  match v with
  | VNone => "None"
  | VBool b => if b then "True" else "False"
  | VInt z => str_int z
  | VStr s => s
  | VInts l => str_list l
  end.

(** An operand of integer arithmetic.  A boolean counts as 0 or 1; a value of
    another type makes the operation a [TypeError]. *)
Definition as_int (v : value) : result Z :=
  match v with
  | VInt z => Ok z
  | VBool b => Ok (if b then 1 else 0)
  | _ => Raise TypeError
  end.

(** [data[k]] used as an integer. *)
Definition int_item (data : gmap string value) (k : string) : result Z :=
  v ← getitem data k; as_int v.

(** ** DimGrid *)

Record DimGrid := mkDimGrid { _grid : gmap string (gmap string Z) }.

Definition zero_row : gmap string Z :=
  <["all" := 0]> (<["new" := 0]> (<["old" := 0]> ∅)).

(** [DimGrid.__init__(self, grid=None)] *)
Definition DimGrid_init (grid : option (gmap string (gmap string Z))) : DimGrid :=
  match grid with
  | None => mkDimGrid (<["M" := zero_row]> (<["S" := zero_row]> (<["E" := zero_row]> ∅)))
  | Some g => mkDimGrid g
  end.

(** [DimGrid.__getitem__(self, X)] *)
Definition DimGrid_getitem (self : DimGrid) (X : string) : result (gmap string Z) :=
  getitem (_grid self) X.

(** [self._grid[X][typ]] *)
Definition entry (self : DimGrid) (X typ : string) : result Z :=
  row ← getitem (_grid self) X; getitem row typ.

(** The right operand of [+]: an integer, a grid, or anything else. *)
Inductive operand :=
| OInt (z : Z)
| OGrid (g : DimGrid)
| OOther.

(** [DimGrid.__add__(self, other)] *)
Definition DimGrid_add (self : DimGrid) (other : operand) : result DimGrid :=
  match other with
  | OInt 0 => Ok self
  | OGrid other =>
      grid ← for_each ["M"; "S"; "E"] (fun grid X =>
        row ← for_each ["all"; "new"; "old"] (fun row typ =>
          a ← entry self X typ;
          b ← entry other X typ;
          Ok (<[typ := a + b]> row)) ∅;
        Ok (<[X := row]> grid)) ∅;
      Ok (DimGrid_init (Some grid))
  | _ => Raise TypeError
  end.

(** [a + b] and [a - b] on column values.  Integers and booleans add and
    subtract as integers; [+] also joins two texts and two lists; every other
    pair of operands is a [TypeError]. *)
Definition value_add (a b : value) : result value :=
  match a, b with
  | VStr x, VStr y => Ok (VStr (x +:+ y))
  | VInts x, VInts y => Ok (VInts (x ++ y)%list)
  | _, _ => x ← as_int a; y ← as_int b; Ok (VInt (x + y))
  end.

Definition value_sub (a b : value) : result value :=
  x ← as_int a; y ← as_int b; Ok (VInt (x - y)).

(** [DimGrid.from_db(data)].  The nine items of the dictionary display are
    evaluated in the order they are written: an item that is a bare
    [data[k]] only looks the column up, and in a sum or a difference both
    operands are looked up before the operation is tried.  Every column
    takes part in a subtraction, so when the last item has been evaluated
    all nine are integers, and the grid holds them as such. *)
Definition from_db (data : gmap string value) : result DimGrid :=
  m_all ← getitem data "mf_dim";
  m_new ← (a ← getitem data "dim"; b ← getitem data "eis_new_dim"; value_add a b);
  m_old ← (a ← getitem data "mf_dim"; b ← getitem data "dim"; ab ← value_sub a b;
            c ← getitem data "eis_new_dim"; value_sub ab c);
  s_all ← getitem data "cusp_dim";
  s_new ← getitem data "dim";
  s_old ← (a ← getitem data "cusp_dim"; b ← getitem data "dim"; value_sub a b);
  e_all ← getitem data "eis_dim";
  e_new ← getitem data "eis_new_dim";
  e_old ← (a ← getitem data "eis_dim"; b ← getitem data "eis_new_dim"; value_sub a b);
  m_all ← as_int m_all; m_new ← as_int m_new; m_old ← as_int m_old;
  s_all ← as_int s_all; s_new ← as_int s_new; s_old ← as_int s_old;
  e_all ← as_int e_all; e_new ← as_int e_new; e_old ← as_int e_old;
  Ok (DimGrid_init (Some (
    <["M" := <["all" := m_all]> (<["new" := m_new]> (<["old" := m_old]> ∅))]> (
    <["S" := <["all" := s_all]> (<["new" := s_new]> (<["old" := s_old]> ∅))]> (
    <["E" := <["all" := e_all]> (<["new" := e_new]> (<["old" := e_old]> ∅))]> ∅))))).

(** A grid is a 3x3 table when its rows are exactly M, S, E and the columns
    of each row exactly all, new, old. *)
Definition is_table (g : DimGrid) : Prop :=
  dom (_grid g) = ({["M"; "S"; "E"]} : gset string) ∧
  ∀ X row, _grid g !! X = Some row → dom row = ({["all"; "new"; "old"]} : gset string).

(** ** The q-expansion formatter *)

(** [l[i]] on a list, for an index that is not negative. *)
Definition list_item {A} (l : list A) (i : nat) : result A :=
  match l !! i with
  | Some a => Ok a
  | None => Raise IndexError
  end.

(** [s[0]] on a string. *)
Definition first_char (s : string) : result ascii :=
  match s with
  | String c _ => Ok c
  | EmptyString => Raise IndexError
  end.

(** [sum([Rgens[i]*eigseq[j][i] for i in range(d)])].  [Rgens] is the basis
    1, beta1, ..., beta(d-1) of the linear forms of the polynomial ring, so
    the sum is kept as its coordinates on that basis; it is the zero
    polynomial exactly when every coordinate is 0. *)
Definition term_of (d : nat) (row : list Z) : result (list Z) :=
  for_each (seq 0 d) (fun acc i => c ← list_item row i; Ok (acc ++ [c])%list) [].

Definition is_zero (term : list Z) : bool := forallb (Z.eqb 0) term.

Definition remainder (prec : nat) : string :=
  "\(+O(q^{" +:+ str_int (Z.of_nat prec) +:+ "})\)".

(** ** Typeset strings

    [latex(x)] returns a [LatexExpr] (sage.misc.latex), a subclass of [str]
    with a [+] of its own, so a string of the formatter is one or the
    other. *)
Inductive text :=
| Str (s : string)
| LatexExpr (s : string).

(** [str(t)]: the characters. *)
Definition str (t : text) : string :=
  match t with Str s | LatexExpr s => s end.

(** [s[-1]] on a string. *)
Fixpoint last_char (s : string) : result ascii :=
  match s with
  | EmptyString => Raise IndexError
  | String c s' => match s' with EmptyString => Ok c | _ => last_char s' end
  end.

(** [LatexExpr.__add__(self, other)] puts a space between the operands
    where neither brings one, and none next to an empty operand:
    [left = str(self); right = str(other)], then
    [try: if left[-1] != ' ' and right[0] != ' ': left += ' '] with
    [except IndexError: pass], then [return LatexExpr(left + right)]. *)
Definition LatexExpr_add (self other : text) : text :=
  let left := str self in
  let right := str other in
  let wanted :=
    l ← last_char left;
    if negb (Ascii.eqb l " ")
    then r ← first_char right; Ok (negb (Ascii.eqb r " "))
    else Ok false in
  match wanted with
  | Ok true => LatexExpr ((left +:+ " ") +:+ right)
  | Ok false | Raise _ => LatexExpr (left +:+ right)
  end.

(** [a + b] on strings.  Two plain strings are joined.  With a [LatexExpr]
    on the left its [__add__] is called.  With one on the right only, its
    [__radd__], which is [LatexExpr(other) + self], is called before the [+]
    of [str], because [LatexExpr] is a subclass of [str]. *)
Definition text_add (a b : text) : text :=
  match a, b with
  | Str x, Str y => Str (x +:+ y)
  | LatexExpr _, _ => LatexExpr_add a b
  | Str x, LatexExpr _ => LatexExpr_add (LatexExpr x) b
  end.

Section Formatter.
(** [latex(term*(q**j))]: the typesetting of a coefficient times a power of
    q is the algebra library's; these are the characters of the [LatexExpr]
    it returns. *)
Variable latex : list Z → nat → string.

(** The body of [for j in range(prec)]. *)
Definition qexp_step (eigseq : list (list Z)) (d : nat) (s : text) (j : nat)
  : result text :=
  row ← list_item eigseq j;
  term ← term_of d row;
  if negb (is_zero term) then
    let latexterm := LatexExpr (latex term j) in
    latexterm ←
      (if negb (String.eqb (str s) "") then
         c ← first_char (str latexterm);
         if negb (Ascii.eqb c "-") then Ok (text_add (Str "+") latexterm)
         else Ok latexterm
       else Ok latexterm);
    Ok (text_add s (text_add (text_add (Str "\(") latexterm) (Str "\)")))
  else Ok s.

(** The value returned is given by its characters: it is a [LatexExpr] when
    a term was typeset and a plain string otherwise, and two strings are
    equal when their characters are. *)
Definition eigs_as_seqseq_to_qexp (eigseq : list (list Z)) : result string :=
  let prec := length eigseq in
  if bool_decide (prec = 0%nat) then Ok "O(1)"
  else
    row0 ← list_item eigseq 0;
    let d := length row0 in
    s ← for_each (seq 0 prec) (qexp_step eigseq d) (Str "");
    Ok (str (text_add s (Str (remainder prec)))).

(** The policy of section 4.3, in the spec's words: the terms with a zero
    coefficient are left out; the first term that remains is typeset as it
    is, each later one gets a [+] in front unless its typesetting begins
    with a minus sign.  Each term stands between the delimiters \( and \),
    and the pieces and the remainder follow one another. *)
Definition coefficient (d : nat) (row : list Z) : list Z := take d row.

Fixpoint kept_from (d j : nat) (rows : list (list Z)) : list string :=
  match rows with
  | [] => []
  | row :: rows' =>
      (if is_zero (coefficient d row) then []
       else [latex (coefficient d row) j]) ++ kept_from d (S j) rows'
  end%list.

Definition kept_terms (d : nat) (eigseq : list (list Z)) : list string :=
  kept_from d 0 eigseq.

Definition begins_with_minus (s : string) : bool :=
  match s with
  | String c _ => Ascii.eqb c "-"
  | EmptyString => false
  end.

Definition begins_with_space (s : string) : bool :=
  match s with
  | String c _ => Ascii.eqb c " "
  | EmptyString => false
  end.

Fixpoint ends_with_space (s : string) : bool :=
  match s with
  | EmptyString => false
  | String c s' =>
      match s' with EmptyString => Ascii.eqb c " " | _ => ends_with_space s' end
  end.

(** The space that sets a typeset term off from what stands before it and
    after it: a single one, and none where the term brings its own or, in
    front, where the term is empty. *)
Definition space_before (latexterm : string) : string :=
  if String.eqb latexterm "" || begins_with_space latexterm then "" else " ".

Definition space_after (latexterm : string) : string :=
  if ends_with_space latexterm then "" else " ".

Definition with_sign (latexterm : string) : string :=
  if begins_with_minus latexterm then latexterm
  else "+" +:+ space_before latexterm +:+ latexterm.

Definition in_math (latexterm : string) : string :=
  "\(" +:+ space_before latexterm +:+ latexterm +:+ space_after latexterm +:+ "\)".

(** The pieces of the terms that remain; [first] tells whether the first of
    them is the first of the output. *)
Fixpoint pieces (first : bool) (terms : list string) : list string :=
  match terms with
  | [] => []
  | t :: ts => in_math (if first then t else with_sign t) :: pieces false ts
  end.

(** The pieces and the remainder, a single space between neighbours. *)
Definition typeset_qexp (eigseq : list (list Z)) : string :=
  match eigseq with
  | [] => "O(1)"
  | row0 :: _ =>
      String.concat " " (pieces true (kept_terms (length row0) eigseq)
                         ++ [remainder (length eigseq)])%list
  end.
End Formatter.

(** A typeset term that is not empty and has no space at either end. *)
Definition tidy (latexterm : string) : Prop :=
  latexterm ≠ "" ∧ begins_with_space latexterm = false ∧
  ends_with_space latexterm = false.

(** The string the loop of the formatter holds in [s] after the given
    pieces, and what is known of the pieces: joined, they end with the
    closing delimiter. *)
Definition state_of (acc : list string) : text :=
  match acc with
  | [] => Str ""
  | _ => LatexExpr (String.concat " " acc)
  end.

Definition closed (acc : list string) : Prop :=
  acc ≠ [] → ∃ x, String.concat " " acc = x +:+ "\)".

(** A plain-text typesetter, to run the formatter on examples: the
    coordinates between brackets, then [q^j]. *)
Definition latex_plain (term : list Z) (j : nat) : string :=
  match term with
  | c :: _ => (if Z.ltb c 0 then "-" else "") +:+ str_list term +:+ "q^" +:+ str_int (Z.of_nat j)
  | [] => "q^" +:+ str_int (Z.of_nat j)
  end.

(** ** The data store

    [db.mf_newforms.lookup(label)] gives the row of a newform or [None];
    [db.mf_newspaces.lookup(label, columns)] gives the named columns of the
    row of a space, as a dictionary for a list of columns and as the bare
    value for one column name; [db.mf_hecke_nf.search(..., sort=['n'])] gives
    the eigenvalue rows of an orbit in the order of [n]. *)

Record hecke_row := mkRow {
  ev_n : Z;                      (* ev['n'] *)
  ev_an : option (list Z)        (* ev.get('an'): NULL when only traces are stored *)
}.

(** What [search] hands back: a list of rows, or an iterator over them.  In a
    condition a list is true when it is not empty, an iterator always. *)
Inductive found :=
| AsList (rows : list hecke_row)
| AsIterator (rows : list hecke_row).

Definition rows_of (f : found) : list hecke_row :=
  match f with AsList rows | AsIterator rows => rows end.

Definition found_truth (f : found) : bool :=
  match f with
  | AsList rows => negb (bool_decide (rows = []))
  | AsIterator _ => true
  end.

Record database := mkDatabase {
  mf_newforms : string → option (gmap string value);
  mf_newspaces : value → option (gmap string value);
  mf_hecke_nf : value → found
}.

Inductive query :=
| LookupNewform (label : string)
| LookupNewspace (label : value) (columns : list string)
| SearchHecke (hecke_orbit_code : value).

(** A computation that questions the store: it yields the queries it made,
    in order, and a result. *)
Definition DB (A : Type) : Type := database → list query * result A.

#[global] Instance DB_ret : MRet DB := fun _ a _ => ([], Ok a).
#[global] Instance DB_bind : MBind DB := fun _ _ k m db =>
  match m db with
  | (asked, Ok a) => let '(asked', r) := k a db in ((asked ++ asked')%list, r)
  | (asked, Raise e) => (asked, Raise e)
  end.

Definition lift {A} (r : result A) : DB A := fun _ => ([], r).
Definition raise {A} (e : exn) : DB A := lift (Raise e).

Definition lookup_newform (label : string) : DB (option (gmap string value)) :=
  fun db => ([LookupNewform label], Ok (mf_newforms db label)).

Definition lookup_newspace (label : value) (columns : list string)
  : DB (option (gmap string value)) :=
  fun db => ([LookupNewspace label columns],
             Ok (filter (fun kv => kv.1 ∈ columns) <$> mf_newspaces db label)).

Definition lookup_newspace_column (label : value) (column : string) : DB value :=
  fun db => ([LookupNewspace label [column]],
             Ok (default VNone (row ← mf_newspaces db label; row !! column))).

Definition search_hecke (code : value) : DB found :=
  fun db => ([SearchHecke code], Ok (mf_hecke_nf db code)).

(** ** WebNewform *)

(** The attributes of an instance.  Those merged from rows by
    [self.__dict__.update] stay in the dictionary [__dict__]; those the
    constructor assigns one by one are the fields after it, and a field
    stands in front of a dictionary entry of the same name. *)
Record WebNewform := mkWebNewform {
  __dict__ : gmap string value;
  _data : gmap string value;
  dim_grid : DimGrid;
  has_exact_qexp : bool;
  qexp : option (list (list Z));
  qexp_prec : option Z;
  char_conrey : value;
  char_conrey_str : string;
  char_conrey_link : string;
  inner_twist : list (value * string);
  char_orbit_label : string;
  properties : list (string * value);
  bread : list string;
  title : string;
  friends : list (string * string)
}.

(** A parent space handed to the constructor. *)
Record space := mkSpace {
  space_conrey_labels : value;
  space_cyc_degree : value
}.

(** [self.name] *)
Definition getattr (attrs : gmap string value) (name : string) : result value :=
  match attrs !! name with
  | Some v => Ok v
  | None => Raise (AttributeError name)
  end.

(** [d.get(k)] *)
Definition dict_get (d : gmap string value) (k : string) : value :=
  default VNone (d !! k).

(** [v[0]] *)
Definition item0 (v : value) : result value :=
  match v with
  | VInts (x :: _) => Ok (VInt x)
  | VStr (String c _) => Ok (VStr (String c ""))
  | VInts [] | VStr EmptyString => Raise IndexError
  | _ => Raise TypeError
  end.

(** [for chi in v] *)
Fixpoint chars (s : string) : list value :=
  match s with
  | EmptyString => []
  | String c s' => VStr (String c "") :: chars s'
  end.

Definition iterate (v : value) : result (list value) :=
  match v with
  | VInts l => Ok (VInt <$> l)
  | VStr s => Ok (chars s)
  | _ => Raise TypeError
  end.

(** The attributes set from the eigenvalue rows. *)
Record qexp_attrs := mkQexp {
  q_has_exact_qexp : bool;
  q_qexp : option (list (list Z));
  q_qexp_prec : option Z
}.

(** [not ev.get('an')] *)
Definition only_traces (an : option (list Z)) : bool :=
  match an with
  | Some (_ :: _) => false
  | _ => true
  end.

(** [for i, ev in enumerate(eigenvals)], from index [i] on; [break] ends the
    loop with the state reached. *)
Fixpoint eigen_loop (i : Z) (evs : list hecke_row)
    (has_exact : bool) (qexp : list (list Z)) : result (bool * list (list Z)) :=
  match evs with
  | [] => Ok (has_exact, qexp)
  | ev :: evs' =>
      if negb (Z.eqb (ev_n ev) (i + 1)) then Raise (ValueError "Missing eigenvalue")
      else if only_traces (ev_an ev) then Ok (false, qexp)
      else eigen_loop (i + 1) evs' has_exact (qexp ++ [default [] (ev_an ev)])%list
  end.

(** The rows the loop looks at: those up to the first one without a vector,
    that one included. *)
Fixpoint checked (evs : list hecke_row) : list hecke_row :=
  match evs with
  | [] => []
  | ev :: evs' => ev :: (if only_traces (ev_an ev) then [] else checked evs')
  end.

(** Indices 1, 2, 3, ... without a gap. *)
Definition gap_free (evs : list hecke_row) : Prop :=
  ∀ (i : nat) ev, evs !! i = Some ev → ev_n ev = Z.of_nat i + 1.

(** Lines 91 to 105 of the constructor. *)
Definition load_eigenvalues (attrs : gmap string value) (eigenvals : found)
  : result qexp_attrs :=
  if found_truth eigenvals then
    dim ← (v ← getattr attrs "dim"; as_int v);
    let zero := replicate (Z.to_nat dim) 0 in
    '(has_exact, qexp) ← eigen_loop 0 (rows_of eigenvals) true [zero];
    Ok (mkQexp has_exact (Some qexp) (Some (Z.of_nat (length qexp) - 1)))
  else Ok (mkQexp false None None).

Section Presenter.
(** The collaborators outside this file:
    [url_character(type='Dirichlet', modulus=m, number=c)],
    [cremona_letter_code(n)], [nf_display_knowl(label, name)] and
    [field_pretty(label)]. *)
Variable url_character : value → value → string.
Variable cremona_letter_code : Z → result string.
Variable nf_display_knowl : value → string → string.
Variable field_pretty : value → string.

(** Line 115:
    ["\(" + str(self.level) + "\)." + cremona_letter_code(self.char_orbit - 1)] *)
Definition derive_char_orbit_label (level char_orbit : value) : result string :=
  let prefix := "\(" +:+ py_str level +:+ "\)." in
  n ← (c ← as_int char_orbit; Ok (c - 1));
  code ← cremona_letter_code n;
  Ok (prefix +:+ code).

(** [WebNewform.__init__(self, data, space=None)] *)
Definition WebNewform_init (data : gmap string value) (space : option space)
  : DB WebNewform :=
  let attrs := data in
  dim_grid ← lift (from_db data);
  attrs ←
    match space with
    | None =>
        space_label ← lift (getattr attrs "space_label");
        chardata ← lookup_newspace space_label ["conrey_labels"; "cyc_degree"];
        match chardata with
        | Some cd => mret (cd ∪ attrs)
        | None => raise TypeError
        end
    | Some sp =>
        mret (<["cyc_degree" := space_cyc_degree sp]>
                (<["conrey_labels" := space_conrey_labels sp]> attrs))
    end;
  code ← lift (getattr attrs "hecke_orbit_code");
  eigenvals ← search_hecke code;
  q ← lift (load_eigenvalues attrs eigenvals);
  space_label ← lift (getattr attrs "space_label");
  labels ← lookup_newspace_column space_label "conrey_labels";
  char_conrey ← lift (item0 labels);
  level ← lift (getattr attrs "level");
  let char_conrey_str :=
    "\chi_{" +:+ py_str level +:+ "}(" +:+ py_str char_conrey +:+ ",\cdot)" in
  let char_conrey_link := url_character level char_conrey in
  twists ← lift (v ← getattr attrs "inner_twist"; iterate v);
  let inner_twist := (fun chi => (chi, url_character level chi)) <$> twists in
  char_orbit ← lift (getattr attrs "char_orbit");
  char_orbit_label ← lift (derive_char_orbit_label level char_orbit);
  label ← lift (getattr attrs "label");
  weight ← lift (getattr attrs "weight");
  dim ← lift (getattr attrs "dim");
  let properties :=
    [("Label", label);
     ("Weight", VStr (py_str weight));
     ("Character Orbit", VStr (py_str char_orbit));
     ("Representative Character", VStr ("\(" +:+ char_conrey_str +:+ "\)"));
     ("Dimension", VStr (py_str dim))] in
  let properties :=
    if truthy (dict_get attrs "is_CM")
    then (properties ++ [("CM", VStr (py_str (dict_get attrs "is_CM")))])%list
    else properties in
  mret (mkWebNewform attrs data dim_grid
          (q_has_exact_qexp q) (q_qexp q) (q_qexp_prec q)
          char_conrey char_conrey_str char_conrey_link inner_twist
          char_orbit_label properties [] ("Newform " +:+ py_str label) []).

(** [WebNewform.by_label(label)] *)
Definition by_label (label : string) : DB WebNewform :=
  if negb (valid_label label)
  then raise (ValueError ("Invalid newform label " +:+ label +:+ "."))
  else
    data ← lookup_newform label;
    match data with
    | None => raise (ValueError ("Newform " +:+ label +:+ " not found"))
    | Some data => WebNewform_init data None
    end.

(** [WebNewform.field_knowl(self)] *)
Definition field_knowl (self : WebNewform) : string :=
  let label := dict_get (__dict__ self) "nf_label" in
  if truthy label then nf_display_knowl label (field_pretty label)
  else "Not in LMFDB".

(** [WebNewform.field_display(self)] *)
Definition field_display (self : WebNewform) : result string :=
  let label := dict_get (__dict__ self) "nf_label" in
  if bool_decide (label = VNone) then Ok "\(\Q(\nu)\)"
  else if bool_decide (label = VStr "1.1.1.1") then
    nf_label ← getattr (__dict__ self) "nf_label";
    Ok (nf_display_knowl nf_label "\(\Q\)")
  else Ok ("\(\Q(\nu)\) = " +:+ field_knowl self).
End Presenter.

(** The two symbols of [field_display]: the one returned when no field is
    recorded, and the name given to the rationals ("rationals, special case"
    in the source). *)
Definition generic_field_symbol : string := "\(\Q(\nu)\)".
Definition rationals_symbol : string := "\(\Q\)".

(** ** The letter code

    [cremona_letter_code(n)] of sage.databases.cremona, which the file
    imports and calls at line 115, is not part of it.  The routine writes
    [n] in base 26 with the digits a = 0, ..., z = 25:
    [if n < 0: raise ValueError(...)], [if n == 0: return "a"], [s = ""],
    [while n != 0: s = chr(n%26+97) + s; n //= 26], [return s]. *)

(** [chr(k)] *)
Definition chr (k : Z) : ascii := ascii_of_N (Z.to_N k).

(** The [while] loop, for at most [fuel] rounds.  A round takes a positive
    [n] to [n // 26], which is smaller, so [n] rounds are enough. *)
Fixpoint letters_loop (fuel : nat) (n : Z) (s : string) : string :=
  match fuel with
  | O => s
  | S fuel' =>
      if negb (Z.eqb n 0)
      then letters_loop fuel' (n / 26) (String (chr (n mod 26 + 97)) s)
      else s
  end.

Definition cremona_letter_code (n : Z) : result string :=
  if Z.ltb n 0 then
    Raise (ValueError "Cremona letter codes are only defined for non-negative integers")
  else if Z.eqb n 0 then Ok "a"
  else Ok (letters_loop (Z.to_nat n) n "").

(** The number a letter code stands for: its letters read as the digits of a
    numeral in base 26, a = 0. *)
Definition letter_digit (c : ascii) : Z := Z.of_N (N_of_ascii c) - 97.

Fixpoint number_from (acc : Z) (code : string) : Z :=
  match code with
  | EmptyString => acc
  | String c code' => number_from (26 * acc + letter_digit c) code'
  end.

Definition number_of (code : string) : Z := number_from 0 code.

(** A numeral without a leading zero digit: a alone, or a code that does not
    begin with a. *)
Definition no_leading_a (code : string) : Prop :=
  code = "a" ∨ ∃ c rest, code = String c rest ∧ c ≠ "a"%char.

(** The attributes the constructor sets by an assignment of its own after
    the row was merged in, the two taken from the space apart. *)
Definition assigned_attributes : list string :=
  ["_data"; "dim_grid"; "has_exact_qexp"; "qexp"; "qexp_prec";
   "char_conrey"; "char_conrey_str"; "char_conrey_link"; "inner_twist";
   "char_orbit_label"; "properties"; "bread"; "title"; "friends"].

(** ** Auxiliary notions for the statements below *)

(** The characters a label in the four-part format is made of. *)
Definition label_char (c : ascii) : bool :=
  is_digit c || is_lower c || bool_decide (c = "."%char).

(** A row and a grid written out entry by entry. *)
Definition row3 (a n o : Z) : gmap string Z :=
  <["all" := a]> (<["new" := n]> (<["old" := o]> ∅)).

Definition table9 (m s e : Z * Z * Z) : DimGrid :=
  let '(ma, mn, mo) := m in
  let '(sa, sn, so) := s in
  let '(ea, en, eo) := e in
  mkDimGrid (<["M" := row3 ma mn mo]> (<["S" := row3 sa sn so]> (<["E" := row3 ea en eo]> ∅))).

(** Indices i+1, i+2, ... without a gap. *)
Definition gap_from (i : Z) (evs : list hecke_row) : Prop :=
  ∀ (k : nat) ev, evs !! k = Some ev → ev_n ev = i + Z.of_nat k + 1.

(** The vector a row carries. *)
Definition vector (ev : hecke_row) : list Z := default [] (ev_an ev).

(** ** Sample data, to run the definitions *)

Definition sample_a : DimGrid := table9 (5, 3, 2) (4, 3, 1) (1, 0, 1).
Definition sample_b : DimGrid := table9 (9, 4, 5) (7, 4, 3) (2, 0, 2).
Definition sample_c : DimGrid := DimGrid_init None.

Definition sample_eigseq : list (list Z) := [[1; 0]; [0; 0]; [-1; 3]; [2; 2]].

Definition sample_row : gmap string value :=
  <["label" := VStr "11.2.a.a"]> (<["space_label" := VStr "11.2.a"]> (
  <["level" := VInt 11]> (<["weight" := VInt 2]> (<["char_orbit" := VInt 1]> (
  <["hecke_orbit_code" := VInt 4194315]> (<["inner_twist" := VInts [1]]> (
  <["mf_dim" := VInt 5]> (<["dim" := VInt 2]> (<["eis_new_dim" := VInt 1]> (
  <["cusp_dim" := VInt 4]> (<["eis_dim" := VInt 1]> ∅))))))))))).

Definition sample_space_row : gmap string value :=
  <["label" := VStr "11.2.a"]> (<["conrey_labels" := VInts [1]]> (
  <["cyc_degree" := VInt 1]> ∅)).

Definition sample_rows : list hecke_row :=
  [mkRow 1 (Some [1; 0]); mkRow 2 (Some [-2; 1]); mkRow 3 (Some [0; -1])].

Definition sample_db : database :=
  mkDatabase
    (fun label => if bool_decide (label = "11.2.a.a") then Some sample_row else None)
    (fun label => if bool_decide (label = VStr "11.2.a") then Some sample_space_row else None)
    (fun code => if bool_decide (code = VInt 4194315) then AsIterator sample_rows
                 else AsIterator []).

(** Plain stand-ins for the collaborators. *)
Definition url_plain (modulus number : value) : string :=
  "/Character/Dirichlet/" +:+ py_str modulus +:+ "/" +:+ py_str number.

Definition knowl_plain (label : value) (name : string) : string :=
  name +:+ " [" +:+ py_str label +:+ "]".

Definition pretty_plain (label : value) : string := py_str label.

(** A record with the given attribute dictionary and nothing else. *)
Definition bare_newform (attrs : gmap string value) : WebNewform :=
  mkWebNewform attrs attrs (DimGrid_init None) false None None
    VNone "" "" [] "" [] [] "" [].

(** ** Further notions for the statements below *)

(** The rows and the columns of a grid, in the order [__add__] visits them. *)
Definition grid_rows : list string := ["M"; "S"; "E"].
Definition grid_columns : list string := ["all"; "new"; "old"].

(** all = new + old in the row [X] of a grid. *)
Definition row_balanced (g : DimGrid) (X : string) : Prop :=
  ∃ a n o, entry g X "all" = Ok a ∧ entry g X "new" = Ok n ∧
           entry g X "old" = Ok o ∧ a = n + o.

(** The five columns [from_db] reads, in the order of their first use. *)
Definition dimension_columns : list string :=
  ["mf_dim"; "dim"; "eis_new_dim"; "cusp_dim"; "eis_dim"].

(** A grid with a row and a column beyond the nine entries, and rows that
    lack a column. *)
Definition sample_wide : DimGrid :=
  mkDimGrid (<["T" := row3 1 1 1]>
            (<["M" := <["cusp" := 7]> (row3 5 3 2)]> (_grid sample_a))).

Definition sample_rows_2 (k : Z) : gmap string value :=
  <["mf_dim" := VInt (5 * k)]> (<["dim" := VInt (2 * k)]> (
  <["eis_new_dim" := VInt k]> (<["cusp_dim" := VInt (4 * k)]> (
  <["eis_dim" := VInt k]> ∅)))).

(** The rows before the first one without a vector. *)
Fixpoint with_vectors (evs : list hecke_row) : list hecke_row :=
  match evs with
  | [] => []
  | ev :: evs' => if only_traces (ev_an ev) then [] else ev :: with_vectors evs'
  end.

(** The columns the constructor takes from the row of the space. *)
Definition space_columns : list string := ["conrey_labels"; "cyc_degree"].

(** A space object and rows for further runs. *)
Definition sample_space : space := mkSpace (VInts [1]) (VInt 1).

Definition sample_row_no_space : gmap string value :=
  <["space_label" := VStr "99.2.a"]> sample_row.

(** ** The display methods of WebNewform *)

(** [l[i]] for any integer index: a negative index counts from the end. *)
Definition py_index {A} (l : list A) (i : Z) : result A :=
  let i' := if Z.ltb i 0 then i + Z.of_nat (length l) else i in
  if Z.ltb i' 0 then Raise IndexError else list_item l (Z.to_nat i').

(** [l[:stop]]: a negative stop counts from the end, and a stop out of range
    is brought back into it. *)
Definition py_slice_to {A} (l : list A) (stop : Z) : list A :=
  let stop' := if Z.ltb stop 0 then Z.max 0 (stop + Z.of_nat (length l)) else stop in
  take (Z.to_nat stop') l.

(** [v[i]] on a value. *)
Definition value_index (v : value) (i : Z) : result value :=
  match v with
  | VInts l => x ← py_index l i; Ok (VInt x)
  | VStr s => py_index (chars s) i
  | _ => Raise TypeError
  end.

(** [v == n] for an integer [n]. *)
Definition eq_int (v : value) (n : Z) : bool :=
  match v with
  | VInt z => Z.eqb z n
  | VBool b => Z.eqb (if b then 1 else 0) n
  | _ => false
  end.

(** An attribute the constructor sets only on some paths. *)
Definition attribute {A} (name : string) (a : option A) : result A :=
  match a with
  | Some x => Ok x
  | None => Raise (AttributeError name)
  end.

(** What a method returns or raises when ZeroDivisionError is among the
    exceptions. *)
Inductive outcome (A : Type) :=
| Returns (a : A)
| Raises (e : exn)
| RaisesZeroDivisionError.
Arguments Returns {A} a.
Arguments Raises {A} e.
Arguments RaisesZeroDivisionError {A}.

Definition of_result {A} (r : result A) : outcome A :=
  match r with
  | Ok a => Returns a
  | Raise e => Raises e
  end.

Section Display.
(** The collaborators: [latex] as above;
    [web_latex_split_on_pm(web_latex(coeff_to_power_series(coeffs, prec=prec),
    enclose=False))]; [coeff_to_power_series([0,1], prec=2)._latex_()];
    [nf_display_knowl]; [field_pretty]; [coeff_to_poly(num, 'nu')._latex_()]. *)
Variable latex : list Z → nat → string.
Variable series_latex : list Z → Z → string.
Variable trace_series_latex : string.
Variable nf_display_knowl : value → string → string.
Variable field_pretty : value → string.
Variable poly_latex : list Z → string.

(** [WebNewform.q_expansion(self, format, prec_max=10)] *)
Definition q_expansion (self : WebNewform) (format : string) (prec_max : Z)
  : result string :=
  if has_exact_qexp self then
    prec ← (if String.eqb format "all" then attribute "qexp_prec" (qexp_prec self)
            else p ← attribute "qexp_prec" (qexp_prec self); Ok (Z.min p prec_max));
    _ ← (v ← getattr (__dict__ self) "dim"; as_int v);
    dim ← getattr (__dict__ self) "dim";
    if eq_int dim 1 then
      coeffs ← for_each (seq 0 (Z.to_nat (prec + 1)))
                 (fun acc n =>
                    qexp ← attribute "qexp" (qexp self);
                    v ← list_item qexp n;
                    c ← list_item v 0;
                    Ok (acc ++ [c])%list) [];
      Ok (series_latex coeffs prec)
    else
      qexp ← attribute "qexp" (qexp self);
      eigs_as_seqseq_to_qexp latex (py_slice_to qexp prec)
  else Ok trace_series_latex.

(** [WebNewform.cm_field_knowl(self)] *)
Definition cm_field_knowl (self : WebNewform) : result string :=
  cm_disc ← getattr (__dict__ self) "cm_disc";
  if eq_int cm_disc 0 then Raise (ValueError "Not CM")
  else
    n ← (c ← as_int cm_disc; Ok (- c));
    let cm_label := "2.0." +:+ str_int n +:+ ".1" in
    Ok (nf_display_knowl (VStr cm_label) (field_pretty (VStr cm_label))).

(** [WebNewform.conrey_from_embedding(self, m)] *)
Definition conrey_from_embedding (self : WebNewform) (m : Z) : outcome value :=
  match getattr (__dict__ self) "conrey_labels" with
  | Raise e => Raises e
  | Ok labels =>
      match (v ← getattr (__dict__ self) "cyc_degree"; as_int v) with
      | Raise e => Raises e
      | Ok cyc_degree =>
          if Z.eqb cyc_degree 0 then RaisesZeroDivisionError
          else of_result (value_index labels ((m - 1) / cyc_degree))
      end
  end.

(** [WebNewform.order_basis(self)], on the values of the attributes
    hecke_ring_numerators and hecke_ring_denominators. *)
Definition order_basis (hecke_ring_numerators : list (list Z))
    (hecke_ring_denominators : list Z) : string :=
  let numerators := poly_latex <$> hecke_ring_numerators in
  let basis :=
    (fun '(num, den) =>
       if Z.eqb den 1 then num
       else "\frac{" +:+ num +:+ "}{" +:+ str_int den +:+ "}")
      <$> zip numerators hecke_ring_denominators in
  String.concat ", "
    (imap (fun i x => "\(\beta_{" +:+ str_int (Z.of_nat i) +:+ "} = " +:+ x +:+ "\)")
          basis).
End Display.

(** More stand-ins and records for runs. *)
Definition series_plain (coeffs : list Z) (prec : Z) : string :=
  str_list coeffs +:+ " + O(q^" +:+ str_int prec +:+ ")".

Definition trace_plain : string := "q + O(q^2)".

Definition sample_embedded : WebNewform :=
  bare_newform (<["conrey_labels" := VInts [1; 5; 7; 11]]> (<["cyc_degree" := VInt 2]> ∅)).

(** A newform of dimension 1 and its store. *)
Definition sample_row_1 : gmap string value :=
  <["dim" := VInt 1]> (<["is_CM" := VInt 1]> (<["cm_disc" := VInt (-7)]> sample_row)).

Definition sample_db_1 : database :=
  mkDatabase
    (fun label => if bool_decide (label = "11.2.a.a") then Some sample_row_1 else None)
    (fun label => if bool_decide (label = VStr "11.2.a") then Some sample_space_row else None)
    (fun code => AsIterator [mkRow 1 (Some [1]); mkRow 2 (Some [-2]); mkRow 3 (Some [-1])]).

(** The record of a construction that succeeded. *)
Definition built_record (r : list query * result WebNewform) : WebNewform :=
  match r.2 with
  | Ok w => w
  | Raise _ => bare_newform ∅
  end.

(** Constructions on the sample data, computed once. *)
Definition sample_built : list query * result WebNewform :=
  Eval vm_compute in WebNewform_init url_plain cremona_letter_code sample_row None sample_db.

Definition sample_built_in_space : list query * result WebNewform :=
  Eval vm_compute in
    WebNewform_init url_plain cremona_letter_code sample_row (Some sample_space) sample_db.

Definition sample_built_1 : list query * result WebNewform :=
  Eval vm_compute in WebNewform_init url_plain cremona_letter_code sample_row_1 None sample_db_1.

Definition sample_found : list query * result WebNewform :=
  Eval vm_compute in by_label url_plain cremona_letter_code "11.2.a.a" sample_db.

(** * Strings *)

Lemma app_cons c (a b : string) : String c a +:+ b = String c (a +:+ b).
Proof. reflexivity. Qed.

Lemma app_empty_l (a : string) : "" +:+ a = a.
Proof. reflexivity. Qed.

Lemma app_assoc_str (a b c : string) : (a +:+ b) +:+ c = a +:+ (b +:+ c).
Proof.
  induction a as [|x a IH]; [done|].
  by rewrite !app_cons, IH.
Qed.

Lemma app_empty_r (a : string) : a +:+ "" = a.
Proof.
  induction a as [|x a IH]; [done|].
  by rewrite app_cons, IH.
Qed.

(** * Label validation *)

Lemma all_chars_app p (a b : string) :
  all_chars p (a +:+ b) = all_chars p a && all_chars p b.
Proof.
  induction a as [|x a IH]; [done|].
  rewrite app_cons. simpl. rewrite IH. by rewrite andb_assoc.
Qed.

Lemma plus_run_spec p k s :
  plus_run p k s = true ↔
  ∃ a rest, s = a +:+ rest ∧ run_of p a ∧ k rest = true.
Proof.
  induction s as [|c s IH]; simpl.
  - split; [done|].
    intros (a & rest & Hs & [Hne _] & _).
    destruct a; [done | discriminate].
  - rewrite andb_true_iff, orb_true_iff, IH. split.
    + intros [Hc [(a & rest & -> & [Hne Ha] & Hk) | Hk]].
      * exists (String c a), rest. repeat split; [done | | done].
        simpl. by rewrite Hc, Ha.
      * exists (String c ""), s. repeat split; [done | | done].
        simpl. by rewrite Hc.
    + intros (a & rest & Hs & [Hne Ha] & Hk).
      destruct a as [|x a]; [done|].
      rewrite app_cons in Hs. simpl in Ha. injection Hs as -> ->.
      apply andb_true_iff in Ha as [Hx Ha]. split; [done|].
      destruct a as [|y a].
      * by right.
      * left. exists (String y a), rest. by repeat split.
Qed.

Lemma match_plus lo hi r b s :
  match_at (Plus lo hi :: r) b s = true ↔
  ∃ a rest, s = a +:+ rest ∧ run_of (in_range lo hi) a ∧ match_at r false rest = true.
Proof. simpl. apply plus_run_spec. Qed.

Lemma match_lit c r b s :
  match_at (Lit c :: r) b s = true ↔
  ∃ rest, s = String c rest ∧ match_at r false rest = true.
Proof.
  simpl. destruct s as [|a s].
  - split; [done | by intros (? & ? & _)].
  - rewrite andb_true_iff, bool_decide_eq_true. split.
    + intros [-> H]. by exists s.
    + intros (rest & [= -> ->] & H). done.
Qed.

Lemma match_dollar b s :
  match_at [Dollar] b s = true ↔ s = "" ∨ s = newline.
Proof.
  simpl. unfold at_dollar.
  rewrite andb_true_r, orb_true_iff, !bool_decide_eq_true. done.
Qed.

(** What the pattern accepts: the four-part format, with or without one line
    feed after it. *)
Lemma valid_label_accepts s :
  valid_label s = true ↔ four_part s ∨ ∃ t, four_part t ∧ s = t +:+ newline.
Proof.
  unfold valid_label, re_match, LABEL_RE.
  change (match_at (Caret :: ?r) true s) with (true && match_at r true s).
  rewrite andb_true_l, match_plus. split.
  - intros (a & r1 & -> & Ha & H).
    apply match_lit in H as (r2 & -> & H).
    apply match_plus in H as (b & r3 & -> & Hb & H).
    apply match_lit in H as (r4 & -> & H).
    apply match_plus in H as (c & r5 & -> & Hc & H).
    apply match_lit in H as (r6 & -> & H).
    apply match_plus in H as (d & r7 & -> & Hd & H).
    apply match_dollar in H.
    assert (Hf : four_part (a +:+ "." +:+ b +:+ "." +:+ c +:+ "." +:+ d)).
    { exists a, b, c, d. repeat (split; [assumption|]). reflexivity. }
    destruct H as [-> | ->].
    + left. by rewrite app_empty_r.
    + right. eexists. split; [exact Hf|].
      by rewrite !app_assoc_str, !app_cons, !app_empty_l.
  - assert (Hgen : ∀ t tail, four_part t → tail = "" ∨ tail = newline →
        ∃ a rest, t +:+ tail = a +:+ rest ∧ run_of (in_range "0" "9") a ∧
          match_at [Lit "."; Plus "0" "9"; Lit "."; Plus "a" "z"; Lit ".";
                    Plus "a" "z"; Dollar] false rest = true).
    { intros t tail (a & b & c & d & Ha & Hb & Hc & Hd & ->) Htail.
      exists a, ("." +:+ b +:+ "." +:+ c +:+ "." +:+ d +:+ tail).
      split; [|split; [done|]].
      { by rewrite !app_assoc_str, !app_cons, !app_empty_l. }
      apply match_lit. eexists. split; [done|].
      apply match_plus. exists b, ("." +:+ c +:+ "." +:+ d +:+ tail).
      split; [done|]. split; [done|].
      apply match_lit. eexists. split; [done|].
      apply match_plus. exists c, ("." +:+ d +:+ tail).
      split; [done|]. split; [done|].
      apply match_lit. eexists. split; [done|].
      apply match_plus. exists d, tail.
      split; [done|]. split; [done|].
      by apply match_dollar. }
    intros [Hf | (t & Hf & ->)].
    + rewrite <- (app_empty_r s). apply Hgen; auto.
    + apply Hgen; auto.
Qed.

Lemma run_label_chars p (a : string) :
  (∀ c, p c = true → label_char c = true) →
  all_chars p a = true → all_chars label_char a = true.
Proof.
  intros Hp. induction a as [|x a IH]; simpl; [done|].
  rewrite !andb_true_iff. intros [Hx Ha]. auto.
Qed.

Lemma four_part_chars s : four_part s → all_chars label_char s = true.
Proof.
  intros (a & b & c & d & [_ Ha] & [_ Hb] & [_ Hc] & [_ Hd] & ->).
  assert (Hdig : ∀ x, is_digit x = true → label_char x = true).
  { intros x Hx. unfold label_char. by rewrite Hx. }
  assert (Hlow : ∀ x, is_lower x = true → label_char x = true).
  { intros x Hx. unfold label_char. rewrite Hx. by rewrite orb_true_r. }
  rewrite !all_chars_app.
  rewrite (run_label_chars _ a Hdig Ha), (run_label_chars _ b Hdig Hb),
    (run_label_chars _ c Hlow Hc), (run_label_chars _ d Hlow Hd).
  reflexivity.
Qed.

(** C5: the validator accepts a label in the four-part format (so "1.12.a.a")
    and rejects "1.12.a", "abc" and "1.12.A.a"; it also accepts the four-part
    format followed by one line feed, which is not in that format. *)
Theorem valid_label_format :
  (∀ s, four_part s → valid_label s = true) ∧
  (∀ s, valid_label s = true → four_part s ∨ ∃ t, four_part t ∧ s = t +:+ newline) ∧
  valid_label "1.12.a.a" = true ∧
  valid_label "1.12.a" = false ∧
  valid_label "abc" = false ∧
  valid_label "1.12.A.a" = false ∧
  valid_label ("1.12.a.a" +:+ newline) = true ∧
  ¬ four_part ("1.12.a.a" +:+ newline).
Proof.
  split; [intros s Hs; apply valid_label_accepts; by left|].
  split; [intros s Hs; by apply valid_label_accepts|].
  repeat split; try reflexivity.
  intros H. apply four_part_chars in H. vm_compute in H. discriminate.
Qed.

(** * DimGrid *)

Lemma three_keys {V} (m : gmap string V) (k1 k2 k3 : string) :
  dom m = ({[k1; k2; k3]} : gset string) →
  ∃ v1 v2 v3, m = <[k1 := v1]> (<[k2 := v2]> (<[k3 := v3]> ∅)).
Proof.
  intros Hdom.
  assert (H1 : is_Some (m !! k1))
    by (apply elem_of_dom; rewrite Hdom, !elem_of_union, !elem_of_singleton; tauto).
  assert (H2 : is_Some (m !! k2))
    by (apply elem_of_dom; rewrite Hdom, !elem_of_union, !elem_of_singleton; tauto).
  assert (H3 : is_Some (m !! k3))
    by (apply elem_of_dom; rewrite Hdom, !elem_of_union, !elem_of_singleton; tauto).
  destruct H1 as [v1 H1], H2 as [v2 H2], H3 as [v3 H3].
  exists v1, v2, v3. apply map_eq. intros k.
  destruct (decide (k = k1)) as [-> | N1]; [by rewrite lookup_insert_eq|].
  rewrite lookup_insert_ne by done.
  destruct (decide (k = k2)) as [-> | N2]; [by rewrite lookup_insert_eq|].
  rewrite lookup_insert_ne by done.
  destruct (decide (k = k3)) as [-> | N3]; [by rewrite lookup_insert_eq|].
  rewrite lookup_insert_ne by done.
  rewrite lookup_empty. apply not_elem_of_dom.
  rewrite Hdom, !elem_of_union, !elem_of_singleton. tauto.
Qed.

Lemma is_table_inv g : is_table g → ∃ m s e, g = table9 m s e.
Proof.
  destruct g as [g]. unfold is_table. cbn [_grid].
  intros Htable. destruct Htable as [Hdom Hrows].
  destruct (three_keys g _ _ _ Hdom) as (rm & rs & re & Hg). clear Hdom. subst g.
  assert (Hm := Hrows "M" rm eq_refl).
  assert (Hs := Hrows "S" rs eq_refl).
  assert (He := Hrows "E" re eq_refl).
  apply three_keys in Hm as (ma & mn & mo & ->).
  apply three_keys in Hs as (sa & sn & so & ->).
  apply three_keys in He as (ea & en & eo & ->).
  by exists (ma, mn, mo), (sa, sn, so), (ea, en, eo).
Qed.

Lemma row3_dom a n o : dom (row3 a n o) = ({["all"; "new"; "old"]} : gset string).
Proof. unfold row3. rewrite !dom_insert_L, dom_empty_L. set_solver. Qed.

Lemma table9_is_table m s e : is_table (table9 m s e).
Proof.
  destruct m as [[ma mn] mo], s as [[sa sn] so], e as [[ea en] eo].
  split; simpl.
  - rewrite !dom_insert_L, dom_empty_L. set_solver.
  - intros X row H.
    destruct (decide (X = "M")) as [-> | NM].
    { rewrite lookup_insert_eq in H. injection H as <-. apply row3_dom. }
    rewrite lookup_insert_ne in H by done.
    destruct (decide (X = "S")) as [-> | NS].
    { rewrite lookup_insert_eq in H. injection H as <-. apply row3_dom. }
    rewrite lookup_insert_ne in H by done.
    destruct (decide (X = "E")) as [-> | NE].
    { rewrite lookup_insert_eq in H. injection H as <-. apply row3_dom. }
    rewrite lookup_insert_ne in H by done. done.
Qed.

Lemma add_table9 ma mn mo sa sn so ea en eo ma' mn' mo' sa' sn' so' ea' en' eo' :
  DimGrid_add (table9 (ma, mn, mo) (sa, sn, so) (ea, en, eo))
              (OGrid (table9 (ma', mn', mo') (sa', sn', so') (ea', en', eo')))
  = Ok (table9 (ma + ma', mn + mn', mo + mo') (sa + sa', sn + sn', so + so')
               (ea + ea', en + en', eo + eo')).
Proof.
  reflexivity.
Qed.

Lemma zero_grid_table9 : DimGrid_init None = table9 (0, 0, 0) (0, 0, 0) (0, 0, 0).
Proof. reflexivity. Qed.

Lemma table9_ext m s e m' s' e' :
  m = m' → s = s' → e = e' → table9 m s e = table9 m' s' e'.
Proof. by intros -> -> ->. Qed.

Ltac triples :=
  apply table9_ext;
  repeat match goal with |- (_, _) = (_, _) => apply pair_equal_spec; split end;
  lia.

(** C7: on 3x3 tables, adding the all-zero grid (or the integer 0) gives back
    the grid, and addition is commutative and associative; the sum of two
    tables is a table. *)
Theorem DimGrid_add_laws (a b c : DimGrid) :
  is_table a → is_table b → is_table c →
  DimGrid_add a (OGrid (DimGrid_init None)) = Ok a ∧
  DimGrid_add a (OInt 0) = Ok a ∧
  DimGrid_add a (OGrid b) = DimGrid_add b (OGrid a) ∧
  (ab ← DimGrid_add a (OGrid b); DimGrid_add ab (OGrid c)) =
    (bc ← DimGrid_add b (OGrid c); DimGrid_add a (OGrid bc)) ∧
  ∃ ab, DimGrid_add a (OGrid b) = Ok ab ∧ is_table ab.
Proof.
  intros Ha Hb Hc.
  apply is_table_inv in Ha as ([[ma mn] mo] & [[sa sn] so] & [[ea en] eo] & ->).
  apply is_table_inv in Hb as ([[ma' mn'] mo'] & [[sa' sn'] so'] & [[ea' en'] eo'] & ->).
  apply is_table_inv in Hc as ([[ma'' mn''] mo''] & [[sa'' sn''] so''] & [[ea'' en''] eo''] & ->).
  rewrite zero_grid_table9, !add_table9.
  split; [f_equal; triples|].
  split; [reflexivity|].
  split; [f_equal; triples|].
  split.
  - cbn [mbind result_bind].
    rewrite !add_table9. f_equal; triples.
  - eexists. split; [reflexivity | apply table9_is_table].
Qed.

Lemma DimGrid_add_laws_witness :
  DimGrid_add sample_a (OGrid (DimGrid_init None)) = Ok sample_a ∧
  DimGrid_add sample_a (OInt 0) = Ok sample_a ∧
  DimGrid_add sample_a (OGrid sample_b) = DimGrid_add sample_b (OGrid sample_a) ∧
  (ab ← DimGrid_add sample_a (OGrid sample_b); DimGrid_add ab (OGrid sample_c)) =
    (bc ← DimGrid_add sample_b (OGrid sample_c); DimGrid_add sample_a (OGrid bc)) ∧
  ∃ ab, DimGrid_add sample_a (OGrid sample_b) = Ok ab ∧ is_table ab.
Proof.
  apply (DimGrid_add_laws sample_a sample_b sample_c).
  - apply table9_is_table.
  - apply table9_is_table.
  - unfold sample_c. rewrite zero_grid_table9. apply table9_is_table.
Defined.

(** ** from_db *)

Lemma int_item_inv data k z :
  int_item data k = Ok z → ∃ v, getitem data k = Ok v ∧ as_int v = Ok z.
Proof.
  unfold int_item. destruct (getitem data k) as [v|]; [|done].
  cbn [mbind result_bind]. eauto.
Qed.

Lemma int_item_intro data k v z :
  getitem data k = Ok v → as_int v = Ok z → int_item data k = Ok z.
Proof. intros Hv Hz. unfold int_item. by rewrite Hv. Qed.

Lemma value_add_int a b x y :
  as_int a = Ok x → as_int b = Ok y → value_add a b = Ok (VInt (x + y)).
Proof. destruct a, b; try done; cbn; by intros [= <-] [= <-]. Qed.

Lemma value_sub_int a b x y :
  as_int a = Ok x → as_int b = Ok y → value_sub a b = Ok (VInt (x - y)).
Proof. intros Ha Hb. unfold value_sub. by rewrite Ha, Hb. Qed.

Lemma value_sub_inv a b v :
  value_sub a b = Ok v → ∃ x y, as_int a = Ok x ∧ as_int b = Ok y ∧ v = VInt (x - y).
Proof.
  unfold value_sub. destruct (as_int a) as [x|]; [|done].
  destruct (as_int b) as [y|]; [|done].
  cbn [mbind result_bind]. intros [= <-]. by exists x, y.
Qed.

(** With the five columns integers, [from_db] returns the table of lines 45
    to 53. *)
Lemma from_db_ok data mf_dim dim eis_new_dim cusp_dim eis_dim :
  int_item data "mf_dim" = Ok mf_dim → int_item data "dim" = Ok dim →
  int_item data "eis_new_dim" = Ok eis_new_dim →
  int_item data "cusp_dim" = Ok cusp_dim → int_item data "eis_dim" = Ok eis_dim →
  from_db data
  = Ok (table9 (mf_dim, dim + eis_new_dim, mf_dim - dim - eis_new_dim)
               (cusp_dim, dim, cusp_dim - dim)
               (eis_dim, eis_new_dim, eis_dim - eis_new_dim)).
Proof.
  intros E1 E2 E3 E4 E5.
  apply int_item_inv in E1 as (vm & Em & Hm), E2 as (vd & Ed & Hd),
    E3 as (ve & Ee & He), E4 as (vc & Ec & Hc), E5 as (vs & Es & Hs).
  unfold from_db. rewrite Em, Ed, Ee, Ec, Es. cbn [mbind result_bind].
  rewrite (value_add_int _ _ _ _ Hd He), (value_sub_int _ _ _ _ Hm Hd).
  cbn [mbind result_bind].
  rewrite (value_sub_int (VInt (mf_dim - dim)) ve _ _ eq_refl He).
  rewrite (value_sub_int _ _ _ _ Hc Hd), (value_sub_int _ _ _ _ Hs He).
  cbn [mbind result_bind]. rewrite Hm, Hd, He, Hc, Hs. reflexivity.
Qed.

(** What [from_db] returns when it returns: the five columns are integers
    and the grid is that table. *)
Lemma from_db_inv data g :
  from_db data = Ok g →
  ∃ mf_dim dim eis_new_dim cusp_dim eis_dim,
    int_item data "mf_dim" = Ok mf_dim ∧ int_item data "dim" = Ok dim ∧
    int_item data "eis_new_dim" = Ok eis_new_dim ∧
    int_item data "cusp_dim" = Ok cusp_dim ∧ int_item data "eis_dim" = Ok eis_dim ∧
    g = table9 (mf_dim, dim + eis_new_dim, mf_dim - dim - eis_new_dim)
               (cusp_dim, dim, cusp_dim - dim)
               (eis_dim, eis_new_dim, eis_dim - eis_new_dim).
Proof.
  intros H. pose proof H as Hrun. unfold from_db in Hrun.
  destruct (getitem data "mf_dim") as [vm|] eqn:Em; [|discriminate Hrun].
  destruct (getitem data "dim") as [vd|] eqn:Ed; [|discriminate Hrun].
  destruct (getitem data "eis_new_dim") as [ve|] eqn:Ee; [|discriminate Hrun].
  cbn [mbind result_bind] in Hrun.
  destruct (value_add vd ve) as [mn|]; [|discriminate Hrun].
  cbn [mbind result_bind] in Hrun.
  destruct (value_sub vm vd) as [ab|] eqn:E1; [|discriminate Hrun].
  apply value_sub_inv in E1 as (m & d & Hm & Hd & ->).
  cbn [mbind result_bind] in Hrun.
  destruct (value_sub (VInt (m - d)) ve) as [mo|] eqn:E2; [|discriminate Hrun].
  apply value_sub_inv in E2 as (? & en & _ & Hen & _).
  cbn [mbind result_bind] in Hrun.
  destruct (getitem data "cusp_dim") as [vc|] eqn:Ec; [|discriminate Hrun].
  cbn [mbind result_bind] in Hrun.
  destruct (value_sub vc vd) as [so|] eqn:E3; [|discriminate Hrun].
  apply value_sub_inv in E3 as (c & ? & Hc & _ & _).
  cbn [mbind result_bind] in Hrun.
  destruct (getitem data "eis_dim") as [vs|] eqn:Es; [|discriminate Hrun].
  cbn [mbind result_bind] in Hrun.
  destruct (value_sub vs ve) as [eo|] eqn:E4; [|discriminate Hrun].
  apply value_sub_inv in E4 as (e & ? & He & _ & _).
  clear Hrun.
  assert (Im := int_item_intro _ _ _ _ Em Hm).
  assert (Id := int_item_intro _ _ _ _ Ed Hd).
  assert (Ien := int_item_intro _ _ _ _ Ee Hen).
  assert (Ic := int_item_intro _ _ _ _ Ec Hc).
  assert (Ie := int_item_intro _ _ _ _ Es He).
  rewrite (from_db_ok _ _ _ _ _ _ Im Id Ien Ic Ie) in H. injection H as <-.
  by exists m, d, en, c, e.
Qed.

(** C6: when the five dimension columns of a row are integers, [from_db]
    builds a grid in which all = new + old holds in each of the rows M, S
    and E. *)
Theorem from_db_all_new_old (data : gmap string value)
    (mf_dim dim eis_new_dim cusp_dim eis_dim : Z) :
  int_item data "mf_dim" = Ok mf_dim →
  int_item data "dim" = Ok dim →
  int_item data "eis_new_dim" = Ok eis_new_dim →
  int_item data "cusp_dim" = Ok cusp_dim →
  int_item data "eis_dim" = Ok eis_dim →
  ∃ g, from_db data = Ok g ∧
    ∀ X, X ∈ ["M"; "S"; "E"] →
      ∃ a n o, entry g X "all" = Ok a ∧ entry g X "new" = Ok n ∧
               entry g X "old" = Ok o ∧ a = n + o.
Proof.
  intros Hm Hd Hen Hc He.
  rewrite (from_db_ok _ _ _ _ _ _ Hm Hd Hen Hc He).
  eexists. split; [reflexivity|].
  intros X HX.
  apply elem_of_cons in HX as [-> | HX]; [|apply elem_of_cons in HX as [-> | HX];
    [|apply list_elem_of_singleton in HX as ->]].
  - exists mf_dim, (dim + eis_new_dim), (mf_dim - dim - eis_new_dim).
    repeat split; lia.
  - exists cusp_dim, dim, (cusp_dim - dim). repeat split; lia.
  - exists eis_dim, eis_new_dim, (eis_dim - eis_new_dim). repeat split; lia.
Qed.

Lemma from_db_all_new_old_witness :
  ∃ g, from_db sample_row = Ok g ∧
    ∀ X, X ∈ ["M"; "S"; "E"] →
      ∃ a n o, entry g X "all" = Ok a ∧ entry g X "new" = Ok n ∧
               entry g X "old" = Ok o ∧ a = n + o.
Proof.
  apply (from_db_all_new_old sample_row 5 2 1 4 1); reflexivity.
Defined.

(** * The q-expansion formatter *)

Lemma list_item_Some {A} (l : list A) i a : l !! i = Some a → list_item l i = Ok a.
Proof. intros H. unfold list_item. by rewrite H. Qed.

Lemma term_of_from (row : list Z) (n a : nat) (acc : list Z) :
  (a + n ≤ length row)%nat →
  for_each (seq a n) (fun acc i => c ← list_item row i; Ok (acc ++ [c])%list) acc
  = Ok (acc ++ take n (drop a row))%list.
Proof.
  revert a acc. induction n as [|n IH]; intros a acc Hlen.
  - simpl. by rewrite take_0, app_nil_r.
  - destruct (lookup_lt_is_Some_2 row a ltac:(lia)) as [c Hc].
    cbn [seq for_each]. rewrite (list_item_Some _ _ _ Hc).
    cbn [mbind result_bind]. rewrite IH by lia.
    f_equal. rewrite <- app_assoc. f_equal.
    rewrite (drop_S _ _ _ Hc). reflexivity.
Qed.

Lemma term_of_ok d (row : list Z) :
  (d ≤ length row)%nat → term_of d row = Ok (coefficient d row).
Proof.
  intros H. unfold term_of, coefficient.
  rewrite term_of_from by lia. by rewrite drop_0.
Qed.

(** ** Sums of typeset strings *)

Lemma app_not_empty (s t : string) : t ≠ "" → s +:+ t ≠ "".
Proof.
  intros Ht H.
  destruct s; [by rewrite app_empty_l in H | by rewrite app_cons in H].
Qed.

Lemma last_char_app (s t : string) : t ≠ "" → last_char (s +:+ t) = last_char t.
Proof.
  intros Ht. induction s as [|c s IH]; [done|].
  rewrite app_cons. cbn [last_char].
  destruct (s +:+ t) eqn:E; [by apply app_not_empty in E | exact IH].
Qed.

Lemma last_char_ends (u : string) :
  u ≠ "" → ∃ c, last_char u = Ok c ∧ Ascii.eqb c " " = ends_with_space u.
Proof.
  induction u as [|c u IH]; [done|]. intros _.
  destruct u as [|c' u]; [by exists c|].
  destruct IH as (x & Hx & Hsp); [done|]. by exists x.
Qed.

Lemma ends_with_space_app (s t : string) :
  t ≠ "" → ends_with_space (s +:+ t) = ends_with_space t.
Proof.
  intros Ht. induction s as [|c s IH]; [done|].
  rewrite app_cons. cbn [ends_with_space].
  destruct (s +:+ t) eqn:E; [by apply app_not_empty in E | exact IH].
Qed.

(** The sum of two typeset strings, written out. *)
Lemma LatexExpr_add_str (a b : text) :
  LatexExpr_add a b
  = LatexExpr (str a +:+
               (if String.eqb (str a) "" || ends_with_space (str a) then ""
                else space_before (str b)) +:+ str b).
Proof.
  unfold LatexExpr_add. destruct (str a) as [|c left] eqn:Ea; [done|].
  destruct (last_char_ends (String c left)) as (l & Hl & Hsp); [done|].
  rewrite Hl. cbn [mbind result_bind]. rewrite Hsp.
  change (String.eqb (String c left) "") with false. cbn [orb].
  destruct (ends_with_space (String c left)); [done|]. cbn [negb].
  unfold space_before. destruct (str b) as [|r right]; [done|].
  cbn [first_char mbind result_bind begins_with_space].
  change (String.eqb (String r right) "") with false. cbn [orb].
  destruct (Ascii.eqb r " "); cbn [negb]; [done|].
  by rewrite app_assoc_str.
Qed.

Lemma ends_with_space_math (u : string) :
  ends_with_space ("\(" +:+ space_before u +:+ u) = ends_with_space u.
Proof.
  destruct u as [|c u]; [done|].
  rewrite !ends_with_space_app; [done | done |].
  by apply app_not_empty.
Qed.

(** ['\(' + latexterm + '\)'] *)
Lemma in_math_sum (u : string) :
  text_add (text_add (Str "\(") (LatexExpr u)) (Str "\)") = LatexExpr (in_math u).
Proof.
  unfold text_add at 2. rewrite LatexExpr_add_str.
  cbn [str]. change (String.eqb "\(" "" || ends_with_space "\(") with false.
  cbv iota. unfold text_add. rewrite LatexExpr_add_str. cbn [str].
  rewrite ends_with_space_math.
  change (String.eqb ("\(" +:+ space_before u +:+ u) "") with false. cbn [orb].
  unfold in_math, space_after. f_equal.
  destruct (ends_with_space u); by rewrite !app_assoc_str.
Qed.

(** ['+' + latexterm], unless [latexterm[0]] is a minus sign. *)
Lemma with_sign_sum (u : string) :
  u ≠ "" →
  (c ← first_char u;
   if negb (Ascii.eqb c "-") then Ok (text_add (Str "+") (LatexExpr u))
   else Ok (LatexExpr u))
  = Ok (LatexExpr (with_sign u)).
Proof.
  intros H. destruct u as [|c u]; [done|].
  cbn [first_char mbind result_bind]. unfold with_sign. cbn [begins_with_minus].
  destruct (Ascii.eqb c "-"); cbn [negb]; [done|].
  unfold text_add. by rewrite LatexExpr_add_str.
Qed.

(** A typeset term without spaces of its own gets one on either side. *)
Lemma in_math_tidy (u : string) : tidy u → in_math u = "\( " +:+ u +:+ " \)".
Proof.
  intros (Hne & Hb & He). unfold in_math, space_before, space_after.
  apply String.eqb_neq in Hne. by rewrite Hne, Hb, He.
Qed.

Lemma with_sign_tidy (u : string) :
  tidy u → with_sign u = if begins_with_minus u then u else "+ " +:+ u.
Proof.
  intros (Hne & Hb & He). unfold with_sign, space_before.
  apply String.eqb_neq in Hne. by rewrite Hne, Hb.
Qed.

Lemma concat_snoc (acc : list string) (p : string) :
  acc ≠ [] →
  String.concat " " (acc ++ [p])%list = String.concat " " acc +:+ " " +:+ p.
Proof.
  induction acc as [|a acc IH]; [done|]. intros _.
  destruct acc as [|b acc]; [done|].
  change (String.concat " " ((a :: b :: acc) ++ [p])%list)
    with (a +:+ " " +:+ String.concat " " ((b :: acc) ++ [p])%list).
  rewrite IH by done.
  change (String.concat " " (a :: b :: acc))
    with (a +:+ " " +:+ String.concat " " (b :: acc)).
  by rewrite !app_assoc_str.
Qed.

Lemma closed_snoc (acc : list string) (u : string) :
  closed (acc ++ [in_math u])%list.
Proof.
  intros _. destruct acc as [|a acc].
  - exists ("\(" +:+ space_before u +:+ u +:+ space_after u).
    cbn [app String.concat]. unfold in_math. by rewrite !app_assoc_str.
  - rewrite concat_snoc by done.
    exists (String.concat " " (a :: acc) +:+ " " +:+
            "\(" +:+ space_before u +:+ u +:+ space_after u).
    unfold in_math. by rewrite !app_assoc_str.
Qed.

(** [s + piece] for a piece that begins with a delimiter. *)
Lemma state_add (acc : list string) (u : string) :
  closed acc →
  text_add (state_of acc) (LatexExpr (in_math u)) = state_of (acc ++ [in_math u])%list.
Proof.
  intros Hc. destruct acc as [|a acc]; [done|].
  destruct (Hc ltac:(done)) as [x Hx].
  unfold state_of. destruct ((a :: acc) ++ [in_math u])%list eqn:E; [done|].
  rewrite <- E. unfold text_add. rewrite LatexExpr_add_str. cbn [str].
  rewrite concat_snoc by done. rewrite Hx.
  rewrite ends_with_space_app by done.
  destruct (String.eqb (x +:+ "\)") "") eqn:Ee;
    [apply String.eqb_eq in Ee; by apply app_not_empty in Ee|].
  reflexivity.
Qed.

(** [s + remainder] *)
Lemma state_remainder (acc : list string) (prec : nat) :
  closed acc →
  str (text_add (state_of acc) (Str (remainder prec)))
  = String.concat " " (acc ++ [remainder prec])%list.
Proof.
  intros Hc. destruct acc as [|a acc]; [done|].
  destruct (Hc ltac:(done)) as [x Hx].
  unfold state_of, text_add. rewrite LatexExpr_add_str. cbn [str].
  rewrite concat_snoc by done. rewrite Hx.
  rewrite ends_with_space_app by done.
  destruct (String.eqb (x +:+ "\)") "") eqn:Ee;
    [apply String.eqb_eq in Ee; by apply app_not_empty in Ee|].
  reflexivity.
Qed.

Lemma state_empty (acc : list string) :
  closed acc → String.eqb (str (state_of acc)) "" = bool_decide (acc = []).
Proof.
  intros Hc. destruct acc as [|a acc]; [done|].
  destruct (Hc ltac:(done)) as [x Hx]. cbn [state_of str]. rewrite Hx.
  rewrite bool_decide_eq_false_2 by done.
  apply String.eqb_neq. by apply app_not_empty.
Qed.

Section FormatterProofs.
Variable latex : list Z → nat → string.

Lemma qexp_step_zero eigseq d s j row :
  eigseq !! j = Some row → (d ≤ length row)%nat →
  is_zero (coefficient d row) = true →
  qexp_step latex eigseq d s j = Ok s.
Proof.
  intros Hrow Hd Hz. unfold qexp_step.
  rewrite (list_item_Some _ _ _ Hrow). cbn [mbind result_bind].
  rewrite term_of_ok by done. cbn [mbind result_bind].
  by rewrite Hz.
Qed.

Lemma qexp_step_kept eigseq d acc j row :
  eigseq !! j = Some row → (d ≤ length row)%nat →
  is_zero (coefficient d row) = false →
  closed acc → latex (coefficient d row) j ≠ "" →
  qexp_step latex eigseq d (state_of acc) j
  = Ok (state_of (acc ++ pieces (bool_decide (acc = [])) [latex (coefficient d row) j])).
Proof.
  intros Hrow Hd Hz Hc Hne. unfold qexp_step.
  rewrite (list_item_Some _ _ _ Hrow). cbn [mbind result_bind].
  rewrite term_of_ok by done. cbn [mbind result_bind].
  rewrite Hz. cbn [negb]. rewrite state_empty by done. cbn [pieces str].
  destruct (bool_decide (acc = [])); cbn [negb].
  - cbn [mbind result_bind]. by rewrite in_math_sum, state_add.
  - rewrite with_sign_sum by done. cbn [mbind result_bind].
    by rewrite in_math_sum, state_add.
Qed.

Lemma for_each_cons {A S} (x : A) xs (body : S → A → result S) s :
  for_each (x :: xs) body s = (s' ← body s x; for_each xs body s').
Proof. reflexivity. Qed.

Lemma qexp_loop (eigseq : list (list Z)) (d : nat) (rest pre : list (list Z))
    (acc : list string) :
  eigseq = (pre ++ rest)%list →
  (∀ j row, eigseq !! j = Some row → (d ≤ length row)%nat) →
  (∀ j row, eigseq !! j = Some row → is_zero (coefficient d row) = false →
            latex (coefficient d row) j ≠ "") →
  closed acc →
  ∃ acc', closed acc' ∧
    acc' = (acc ++ pieces (bool_decide (acc = []))
                     (kept_from latex d (length pre) rest))%list ∧
    for_each (seq (length pre) (length rest)) (qexp_step latex eigseq d) (state_of acc)
    = Ok (state_of acc').
Proof.
  intros Heq Hlen Hlatex. revert pre acc Heq.
  induction rest as [|row rest IH]; intros pre acc Heq Hc.
  - exists acc. split; [done|]. split; [|done]. cbn [kept_from pieces].
    by rewrite app_nil_r.
  - assert (Hrow : eigseq !! length pre = Some row).
    { rewrite Heq. by rewrite list_lookup_middle. }
    assert (Hnext : eigseq = ((pre ++ [row]) ++ rest)%list)
      by (by rewrite <- app_assoc).
    specialize (IH (pre ++ [row])%list).
    rewrite length_app in IH. simpl in IH.
    replace (length pre + 1)%nat with (S (length pre)) in IH by lia.
    change (seq (length pre) (length (row :: rest)))
      with (length pre :: seq (S (length pre)) (length rest)).
    rewrite for_each_cons. cbn [kept_from].
    destruct (is_zero (coefficient d row)) eqn:Hz.
    + rewrite (qexp_step_zero _ _ _ _ _ Hrow) by eauto.
      cbn [mbind result_bind]. by apply IH.
    + assert (Hne := Hlatex _ _ Hrow Hz).
      rewrite (qexp_step_kept _ _ _ _ _ Hrow) by eauto.
      cbn [mbind result_bind pieces].
      set (t := if bool_decide (acc = []) then latex (coefficient d row) (length pre)
                else with_sign (latex (coefficient d row) (length pre))).
      destruct (IH (acc ++ [in_math t])%list Hnext (closed_snoc _ _))
        as (acc' & Hc' & -> & Hrun).
      eexists. split; [exact Hc'|]. split; [|exact Hrun].
      rewrite (bool_decide_eq_false_2 (acc ++ [in_math t] = [])%list)
        by (by destruct acc).
      by rewrite <- app_assoc.
Qed.

Lemma closed_nil : closed [].
Proof. by intros []. Qed.

(** C2: on a sequence whose rows all have at least the length of the first
    and whose non-zero terms are typeset as non-empty strings, the formatter
    returns the terms with a non-zero coefficient only, each between \( and
    \): the first as it is typeset, each later one with a [+] in front
    unless its typesetting begins with a minus sign; the remainder follows,
    and a single space separates neighbours. *)
Theorem qexp_policy (eigseq : list (list Z)) :
  let d := length (default [] (head eigseq)) in
  (∀ j row, eigseq !! j = Some row → (d ≤ length row)%nat) →
  (∀ j row, eigseq !! j = Some row → is_zero (coefficient d row) = false →
            latex (coefficient d row) j ≠ "") →
  eigs_as_seqseq_to_qexp latex eigseq = Ok (typeset_qexp latex eigseq).
Proof.
  intros d Hlen Hlatex. unfold eigs_as_seqseq_to_qexp.
  destruct eigseq as [|row0 eigseq']; [reflexivity|].
  rewrite bool_decide_eq_false_2 by done.
  rewrite (list_item_Some (row0 :: eigseq') 0%nat row0 eq_refl).
  cbn [mbind result_bind].
  change d with (length row0) in *. clear d.
  destruct (qexp_loop (row0 :: eigseq') (length row0) (row0 :: eigseq') [] []
              eq_refl Hlen Hlatex closed_nil) as (acc' & Hc & -> & Hrun).
  change (length []) with 0%nat in Hrun. change (state_of []) with (Str "") in Hrun.
  rewrite Hrun. cbn [mbind result_bind]. by rewrite state_remainder.
Qed.

(** C1: on [[0,0],[1,3]] the formatter returns the typesetting of the
    coefficient 1 + 3 beta1 at power 1 between \( and \), then the remainder
    of order 2, with nothing for the zero constant term: when the typeset
    term has no spaces of its own, the string \( term \) \(+O(q^{2})\).  On
    the empty sequence it returns O(1). *)
Theorem qexp_examples :
  eigs_as_seqseq_to_qexp latex [[0; 0]; [1; 3]]
  = Ok (in_math (latex [1; 3] 1%nat) +:+ " \(+O(q^{2})\)") ∧
  (tidy (latex [1; 3] 1%nat) →
   eigs_as_seqseq_to_qexp latex [[0; 0]; [1; 3]]
   = Ok ("\( " +:+ latex [1; 3] 1%nat +:+ " \) \(+O(q^{2})\)")) ∧
  eigs_as_seqseq_to_qexp latex [] = Ok "O(1)".
Proof.
  assert (Hrun : eigs_as_seqseq_to_qexp latex [[0; 0]; [1; 3]]
                 = Ok (in_math (latex [1; 3] 1%nat) +:+ " \(+O(q^{2})\)")).
  { change (eigs_as_seqseq_to_qexp latex [[0; 0]; [1; 3]])
      with (Ok (str (text_add
                  (text_add (state_of [])
                     (text_add (text_add (Str "\(") (LatexExpr (latex [1; 3] 1%nat)))
                        (Str "\)")))
                  (Str (remainder 2))))).
    rewrite in_math_sum, (state_add [] _ closed_nil).
    by rewrite (state_remainder _ 2 (closed_snoc [] _)). }
  split; [exact Hrun|]. split; [|reflexivity].
  intros Ht. rewrite Hrun, (in_math_tidy _ Ht). by rewrite !app_assoc_str.
Qed.
End FormatterProofs.

(** * Eigenvalue rows *)

Lemma gap_free_from evs : gap_free evs ↔ gap_from 0 evs.
Proof. unfold gap_free, gap_from. by setoid_rewrite Z.add_0_l. Qed.

Lemma gap_from_cons i ev evs :
  gap_from i (ev :: evs) ↔ ev_n ev = i + 1 ∧ gap_from (i + 1) evs.
Proof.
  unfold gap_from. split.
  - intros H. split.
    + rewrite (H 0%nat ev eq_refl). lia.
    + intros k ev' Hk. rewrite (H (S k) ev' Hk). lia.
  - intros [H0 H] [|k] ev' Hk; simpl in Hk.
    + injection Hk as <-. lia.
    + rewrite (H k ev' Hk). lia.
Qed.

Lemma gap_from_nil i : gap_from i [].
Proof. intros k ev Hk. by rewrite lookup_nil in Hk. Qed.

Lemma eigen_loop_cons i ev evs b q :
  eigen_loop i (ev :: evs) b q =
  if negb (Z.eqb (ev_n ev) (i + 1)) then Raise (ValueError "Missing eigenvalue")
  else if only_traces (ev_an ev) then Ok (false, q)
  else eigen_loop (i + 1) evs b (q ++ [vector ev])%list.
Proof. reflexivity. Qed.

(** The loop succeeds when the rows it looks at have no gap. *)
Lemma eigen_loop_checked i evs b q :
  gap_from i (checked evs) → ∃ r, eigen_loop i evs b q = Ok r.
Proof.
  revert i q. induction evs as [|ev evs IH]; intros i q H.
  - by eexists.
  - rewrite eigen_loop_cons. cbn [checked] in H.
    apply gap_from_cons in H as [Hn H].
    rewrite Hn, Z.eqb_refl. cbn [negb].
    destruct (only_traces (ev_an ev)); [by eexists|].
    by apply IH.
Qed.

(** It raises when they have one. *)
Lemma eigen_loop_gap i evs b q :
  ¬ gap_from i (checked evs) →
  eigen_loop i evs b q = Raise (ValueError "Missing eigenvalue").
Proof.
  revert i q. induction evs as [|ev evs IH]; intros i q H.
  - destruct H. cbn [checked]. apply gap_from_nil.
  - rewrite eigen_loop_cons. cbn [checked] in H.
    destruct (Z.eqb_spec (ev_n ev) (i + 1)) as [Hn | Hn]; [|done].
    cbn [negb].
    destruct (only_traces (ev_an ev)).
    + destruct H. apply gap_from_cons. split; [done | apply gap_from_nil].
    + apply IH. intros H'. apply H. by apply gap_from_cons.
Qed.

(** When the loop ends with the flag still set, every row was appended. *)
Lemma eigen_loop_exact i evs b q l :
  eigen_loop i evs b q = Ok (true, l) →
  b = true ∧ l = (q ++ (vector <$> evs))%list ∧ gap_from i evs ∧
  Forall (fun ev => only_traces (ev_an ev) = false) evs.
Proof.
  revert i q. induction evs as [|ev evs IH]; intros i q H.
  - injection H as -> <-. rewrite app_nil_r.
    split; [done|]. split; [done|]. split; [apply gap_from_nil | constructor].
  - rewrite eigen_loop_cons in H.
    destruct (Z.eqb_spec (ev_n ev) (i + 1)) as [Hn | Hn]; [|done].
    cbn [negb] in H.
    destruct (only_traces (ev_an ev)) eqn:Ht; [done|].
    apply IH in H as (-> & -> & Hgap & Hall).
    split; [done|]. split; [by rewrite <- app_assoc|].
    split; [by apply gap_from_cons | by constructor].
Qed.

Lemma only_traces_false an :
  only_traces an = false → ∃ v, an = Some v ∧ v ≠ [].
Proof. destruct an as [[|x v]|]; try done. intros _. by eexists. Qed.

(** The layout of [qexp] when the expansion is exact. *)
Lemma load_eigenvalues_exact attrs eigenvals q :
  load_eigenvalues attrs eigenvals = Ok q →
  q_has_exact_qexp q = true →
  ∃ dim l,
    (v ← getattr attrs "dim"; as_int v) = Ok dim ∧
    q_qexp q = Some l ∧
    l !! 0%nat = Some (replicate (Z.to_nat dim) 0) ∧
    length l = S (length (rows_of eigenvals)) ∧
    (∀ (i : nat) ev, rows_of eigenvals !! i = Some ev →
       ev_n ev = Z.of_nat (S i) ∧ ev_an ev = l !! S i ∧ ev_an ev ≠ Some []) ∧
    q_qexp_prec q = Some (Z.of_nat (length l) - 1).
Proof.
  unfold load_eigenvalues. intros H Hexact.
  destruct (found_truth eigenvals); [|by injection H as <-].
  destruct (v ← getattr attrs "dim"; as_int v) as [dim|] eqn:Hdim; [|done].
  cbn [mbind result_bind] in H.
  destruct (eigen_loop 0 (rows_of eigenvals) true [replicate (Z.to_nat dim) 0])
    as [[b l]|] eqn:Hloop; [|done].
  cbn [mbind result_bind] in H. injection H as <-. simpl in Hexact. subst b.
  apply eigen_loop_exact in Hloop as (_ & -> & Hgap & Hall).
  exists dim, (replicate (Z.to_nat dim) 0 :: (vector <$> rows_of eigenvals)).
  split; [done|]. split; [done|]. split; [done|].
  split; [cbn [length]; by rewrite length_fmap|].
  split; [|done].
  intros i ev Hi. split; [rewrite (Hgap i ev Hi); lia|].
  rewrite Forall_lookup in Hall. specialize (Hall i ev Hi).
  apply only_traces_false in Hall as (v & Hv & Hne).
  change ((?x :: ?t) !! S i) with (t !! i).
  rewrite list_lookup_fmap, Hi. simpl.
  unfold vector. rewrite Hv. split; [done|]. by intros [= ->].
Qed.

(** C3: the rows are checked one by one up to the first row without a vector,
    that row included.  If their indices are 1, 2, 3, ... the step succeeds;
    if not it raises ValueError("Missing eigenvalue").  In particular, when
    every row has a vector, indices 1, 2, 4 raise and indices 1, 2, 3
    succeed. *)
Theorem eigenvalue_indices_checked (attrs : gmap string value) (dim : Z) (eigenvals : found) :
  (v ← getattr attrs "dim"; as_int v) = Ok dim →
  (gap_free (checked (rows_of eigenvals)) →
     ∃ q, load_eigenvalues attrs eigenvals = Ok q) ∧
  (¬ gap_free (checked (rows_of eigenvals)) →
     load_eigenvalues attrs eigenvals = Raise (ValueError "Missing eigenvalue")) ∧
  (∀ a1 a2 a3, a1 ≠ [] → a2 ≠ [] → a3 ≠ [] →
     rows_of eigenvals = [mkRow 1 (Some a1); mkRow 2 (Some a2); mkRow 4 (Some a3)] →
     load_eigenvalues attrs eigenvals = Raise (ValueError "Missing eigenvalue")) ∧
  (∀ a1 a2 a3, a1 ≠ [] → a2 ≠ [] → a3 ≠ [] →
     rows_of eigenvals = [mkRow 1 (Some a1); mkRow 2 (Some a2); mkRow 3 (Some a3)] →
     load_eigenvalues attrs eigenvals
     = Ok (mkQexp true (Some [replicate (Z.to_nat dim) 0; a1; a2; a3]) (Some 3))).
Proof.
  intros Hdim.
  assert (Htruth : found_truth eigenvals = false → rows_of eigenvals = []).
  { destruct eigenvals as [rows|rows]; simpl; [|done].
    intros H. apply negb_false_iff, bool_decide_eq_true in H. done. }
  split; [|split; [|split]].
  - intros Hgap. unfold load_eigenvalues.
    destruct (found_truth eigenvals); [|by eexists].
    rewrite Hdim. cbn [mbind result_bind].
    apply gap_free_from in Hgap.
    destruct (eigen_loop_checked 0 _ true [replicate (Z.to_nat dim) 0] Hgap)
      as [[b l] ->].
    by eexists.
  - intros Hgap. unfold load_eigenvalues.
    destruct (found_truth eigenvals) eqn:Ht.
    + rewrite Hdim. cbn [mbind result_bind].
      rewrite eigen_loop_gap; [done|]. by rewrite <- gap_free_from.
    + destruct Hgap. rewrite (Htruth eq_refl). apply gap_free_from, gap_from_nil.
  - intros a1 a2 a3 H1 H2 H3 Hrows. unfold load_eigenvalues.
    destruct (found_truth eigenvals) eqn:Ht;
      [|by rewrite (Htruth eq_refl) in Hrows].
    rewrite Hdim, Hrows. cbn [mbind result_bind].
    destruct a1, a2, a3; try done; reflexivity.
  - intros a1 a2 a3 H1 H2 H3 Hrows. unfold load_eigenvalues.
    destruct (found_truth eigenvals) eqn:Ht;
      [|by rewrite (Htruth eq_refl) in Hrows].
    rewrite Hdim, Hrows. cbn [mbind result_bind].
    destruct a1, a2, a3; try done; reflexivity.
Qed.

Lemma eigenvalue_indices_checked_witness :
  load_eigenvalues sample_row
    (AsIterator [mkRow 1 (Some [1; 0]); mkRow 2 (Some [0; 3]); mkRow 4 (Some [2; 2])])
  = Raise (ValueError "Missing eigenvalue") ∧
  load_eigenvalues sample_row
    (AsIterator [mkRow 1 (Some [1; 0]); mkRow 2 (Some [0; 3]); mkRow 3 (Some [2; 2])])
  = Ok (mkQexp true (Some [[0; 0]; [1; 0]; [0; 3]; [2; 2]]) (Some 3)).
Proof.
  split.
  - destruct (eigenvalue_indices_checked sample_row 2
                (AsIterator [mkRow 1 (Some [1; 0]); mkRow 2 (Some [0; 3]); mkRow 4 (Some [2; 2])])
                eq_refl) as (_ & _ & H & _).
    apply (H [1; 0] [0; 3] [2; 2]); [discriminate.. | reflexivity].
  - destruct (eigenvalue_indices_checked sample_row 2
                (AsIterator [mkRow 1 (Some [1; 0]); mkRow 2 (Some [0; 3]); mkRow 3 (Some [2; 2])])
                eq_refl) as (_ & _ & _ & H).
    apply (H [1; 0] [0; 3] [2; 2]); [discriminate.. | reflexivity].
Defined.

(** A gap behind a row without a vector is not reported. *)
Lemma gap_after_traces_not_reported :
  ev_n <$> [mkRow 1 None; mkRow 2 (Some [5]); mkRow 4 (Some [7])] = [1; 2; 4] ∧
  load_eigenvalues (<["dim" := VInt 1]> ∅)
    (AsIterator [mkRow 1 None; mkRow 2 (Some [5]); mkRow 4 (Some [7])])
  = Ok (mkQexp false (Some [[0]]) (Some 0)).
Proof. split; reflexivity. Qed.

(** * Construction *)

Lemma DB_bind_Ok {A B} (m : DB A) (k : A → DB B) db asked b :
  (m ≫= k) db = (asked, Ok b) →
  ∃ asked1 a asked2, m db = (asked1, Ok a) ∧ k a db = (asked2, Ok b) ∧
                     asked = (asked1 ++ asked2)%list.
Proof.
  unfold mbind, DB_bind. destruct (m db) as [asked1 [a|e]]; [|done].
  destruct (k a db) as [asked2 r] eqn:Hk. intros [= <- ->]. by eexists _, _, _.
Qed.

Lemma lift_Ok {A} (r : result A) db asked a :
  lift r db = (asked, Ok a) → r = Ok a.
Proof. by intros [= _ ->]. Qed.

Section ConstructionProofs.
Variable url_character : value → value → string.
Variable cremona_letter_code : Z → result string.

Lemma init_eigenvalues data space db asked w :
  WebNewform_init url_character cremona_letter_code data space db = (asked, Ok w) →
  ∃ code q,
    getattr (__dict__ w) "hecke_orbit_code" = Ok code ∧
    load_eigenvalues (__dict__ w) (mf_hecke_nf db code) = Ok q ∧
    has_exact_qexp w = q_has_exact_qexp q ∧
    qexp w = q_qexp q ∧ qexp_prec w = q_qexp_prec q.
Proof.
  unfold WebNewform_init. intros H.
  apply DB_bind_Ok in H as (? & dim_grid & ? & _ & H & _).
  apply DB_bind_Ok in H as (? & attrs & ? & _ & H & _).
  apply DB_bind_Ok in H as (? & code & ? & Hcode & H & _).
  apply DB_bind_Ok in H as (? & eigenvals & ? & Hsearch & H & _).
  apply DB_bind_Ok in H as (? & q & ? & Hq & H & _).
  repeat (apply DB_bind_Ok in H as (? & ? & ? & _ & H & _)).
  injection H as _ <-. simpl.
  apply lift_Ok in Hcode, Hq.
  injection Hsearch as _ <-.
  by exists code, q.
Qed.

(** C10: in a record built with an exact q-expansion, [qexp] starts with the
    zero vector [[0] * dim], its entry at position n is the vector of the
    n-th eigenvalue row, whose index is n, and [qexp_prec] is
    [len(qexp) - 1]. *)
Theorem exact_qexp_layout data space db asked w :
  WebNewform_init url_character cremona_letter_code data space db = (asked, Ok w) →
  has_exact_qexp w = true →
  ∃ code dim l,
    getattr (__dict__ w) "hecke_orbit_code" = Ok code ∧
    (v ← getattr (__dict__ w) "dim"; as_int v) = Ok dim ∧
    qexp w = Some l ∧
    l !! 0%nat = Some (replicate (Z.to_nat dim) 0) ∧
    length l = S (length (rows_of (mf_hecke_nf db code))) ∧
    (∀ (i : nat) ev, rows_of (mf_hecke_nf db code) !! i = Some ev →
       ev_n ev = Z.of_nat (S i) ∧ ev_an ev = l !! S i ∧ ev_an ev ≠ Some []) ∧
    qexp_prec w = Some (Z.of_nat (length l) - 1).
Proof.
  intros Hinit Hexact.
  apply init_eigenvalues in Hinit as (code & q & Hcode & Hload & Hb & Hq & Hp).
  rewrite Hb in Hexact.
  destruct (load_eigenvalues_exact _ _ _ Hload Hexact)
    as (dim & l & Hdim & Hl & H0 & Hlen & Hrows & Hprec).
  exists code, dim, l. rewrite Hq, Hp. done.
Qed.

(** C4: a label the validator rejects raises ValueError("Invalid newform
    label ...") and the store is not asked; a label it accepts whose row is
    absent raises ValueError("Newform ... not found") after the one lookup.
    The label "1.12.a.a" followed by a line feed is not in the four-part
    format, yet it is looked up and reported as not found. *)
Theorem by_label_errors (label : string) (db : database) :
  (valid_label label = false →
     by_label url_character cremona_letter_code label db
     = ([], Raise (ValueError ("Invalid newform label " +:+ label +:+ ".")))) ∧
  (valid_label label = true → mf_newforms db label = None →
     by_label url_character cremona_letter_code label db
     = ([LookupNewform label],
        Raise (ValueError ("Newform " +:+ label +:+ " not found")))) ∧
  ¬ four_part ("1.12.a.a" +:+ newline) ∧
  (mf_newforms db ("1.12.a.a" +:+ newline) = None →
     by_label url_character cremona_letter_code ("1.12.a.a" +:+ newline) db
     = ([LookupNewform ("1.12.a.a" +:+ newline)],
        Raise (ValueError ("Newform " +:+ ("1.12.a.a" +:+ newline) +:+ " not found")))).
Proof.
  unfold by_label. split; [|split; [|split]].
  - intros ->. reflexivity.
  - intros -> Hnone. cbn [negb]. unfold mbind, DB_bind, lookup_newform.
    rewrite Hnone. reflexivity.
  - intros H. apply four_part_chars in H. vm_compute in H. discriminate.
  - intros Hnone.
    change (valid_label ("1.12.a.a" +:+ newline)) with true. cbn [negb].
    unfold mbind, DB_bind, lookup_newform.
    rewrite Hnone. reflexivity.
Qed.
End ConstructionProofs.

Lemma by_label_errors_witness :
  by_label url_plain cremona_letter_code "1.12.A.a" sample_db
  = ([], Raise (ValueError "Invalid newform label 1.12.A.a.")) ∧
  by_label url_plain cremona_letter_code "1.12.a.a" sample_db
  = ([LookupNewform "1.12.a.a"], Raise (ValueError "Newform 1.12.a.a not found")) ∧
  by_label url_plain cremona_letter_code ("1.12.a.a" +:+ newline) sample_db
  = ([LookupNewform ("1.12.a.a" +:+ newline)],
     Raise (ValueError ("Newform " +:+ ("1.12.a.a" +:+ newline) +:+ " not found"))).
Proof.
  split; [|split].
  - destruct (by_label_errors url_plain cremona_letter_code "1.12.A.a" sample_db)
      as [Hinvalid _].
    apply Hinvalid. reflexivity.
  - destruct (by_label_errors url_plain cremona_letter_code "1.12.a.a" sample_db)
      as (_ & Habsent & _).
    apply Habsent; reflexivity.
  - destruct (by_label_errors url_plain cremona_letter_code "1.12.a.a" sample_db)
      as (_ & _ & _ & Hnewline).
    apply Hnewline; reflexivity.
Defined.

Lemma exact_qexp_layout_witness :
  ∃ asked w,
    WebNewform_init url_plain cremona_letter_code sample_row None sample_db = (asked, Ok w) ∧
    has_exact_qexp w = true ∧
    qexp w = Some [[0; 0]; [1; 0]; [-2; 1]; [0; -1]] ∧
    qexp_prec w = Some 3 ∧
    ∃ code dim l,
      getattr (__dict__ w) "hecke_orbit_code" = Ok code ∧
      (v ← getattr (__dict__ w) "dim"; as_int v) = Ok dim ∧
      qexp w = Some l ∧
      l !! 0%nat = Some (replicate (Z.to_nat dim) 0) ∧
      length l = S (length (rows_of (mf_hecke_nf sample_db code))) ∧
      (∀ (i : nat) ev, rows_of (mf_hecke_nf sample_db code) !! i = Some ev →
         ev_n ev = Z.of_nat (S i) ∧ ev_an ev = l !! S i ∧ ev_an ev ≠ Some []) ∧
      qexp_prec w = Some (Z.of_nat (length l) - 1).
Proof.
  destruct (WebNewform_init url_plain cremona_letter_code sample_row None sample_db)
    as [asked [w|e]] eqn:Hinit; [|vm_compute in Hinit; discriminate].
  assert (Hexact : has_exact_qexp w = true).
  { vm_compute in Hinit. by injection Hinit as _ <-. }
  exists asked, w. split; [reflexivity|]. split; [exact Hexact|].
  split; [vm_compute in Hinit; by injection Hinit as _ <-|].
  split; [vm_compute in Hinit; by injection Hinit as _ <-|].
  exact (exact_qexp_layout url_plain cremona_letter_code sample_row None sample_db asked w
           Hinit Hexact).
Defined.

Lemma qexp_examples_witness :
  tidy (latex_plain [1; 3] 1%nat) ∧
  eigs_as_seqseq_to_qexp latex_plain [[0; 0]; [1; 3]]
  = Ok "\( [1, 3]q^1 \) \(+O(q^{2})\)".
Proof.
  assert (Ht : tidy (latex_plain [1; 3] 1%nat)) by (by repeat split).
  split; [exact Ht|].
  destruct (qexp_examples latex_plain) as (_ & H & _). exact (H Ht).
Defined.

Lemma qexp_policy_witness :
  eigs_as_seqseq_to_qexp latex_plain sample_eigseq
  = Ok (typeset_qexp latex_plain sample_eigseq) ∧
  typeset_qexp latex_plain sample_eigseq
  = "\( [1, 0]q^0 \) \( -[-1, 3]q^2 \) \( + [2, 2]q^3 \) \(+O(q^{4})\)".
Proof.
  split; [|reflexivity].
  apply (qexp_policy latex_plain sample_eigseq).
  - intros [|[|[|[|j]]]] row Hj; try discriminate Hj;
      injection Hj as <-; simpl; lia.
  - intros [|[|[|[|j]]]] row Hj Hz; try discriminate Hj;
      injection Hj as <-; discriminate.
Defined.

Lemma valid_label_format_witness :
  four_part "1.12.a.a" ∧ valid_label "1.12.a.a" = true.
Proof.
  assert (H : four_part "1.12.a.a").
  { exists "1", "12", "a", "a". repeat split; discriminate. }
  split; [exact H|].
  destruct valid_label_format as [Hfmt _]. exact (Hfmt "1.12.a.a" H).
Defined.

(** * The character-orbit label *)

Section LetterCodeProofs.
Variable url_character : value → value → string.
Variable cremona_letter_code : Z → result string.

(** The constructor stores what line 115 derives from the attributes
    [level] and [char_orbit]. *)
Lemma init_char_orbit_label data space db asked w :
  WebNewform_init url_character cremona_letter_code data space db = (asked, Ok w) →
  ∃ level char_orbit,
    getattr (__dict__ w) "level" = Ok level ∧
    getattr (__dict__ w) "char_orbit" = Ok char_orbit ∧
    derive_char_orbit_label cremona_letter_code level char_orbit
    = Ok (char_orbit_label w).
Proof.
  unfold WebNewform_init. intros H.
  apply DB_bind_Ok in H as (? & dim_grid & ? & _ & H & _).
  apply DB_bind_Ok in H as (? & attrs & ? & _ & H & _).
  do 6 (apply DB_bind_Ok in H as (? & ? & ? & _ & H & _)).
  apply DB_bind_Ok in H as (? & level & ? & Hlevel & H & _).
  apply DB_bind_Ok in H as (? & twists & ? & _ & H & _).
  apply DB_bind_Ok in H as (? & char_orbit & ? & Horbit & H & _).
  apply DB_bind_Ok in H as (? & label & ? & Hlabel & H & _).
  repeat (apply DB_bind_Ok in H as (? & ? & ? & _ & H & _)).
  injection H as _ <-. cbn [__dict__ char_orbit_label].
  apply lift_Ok in Hlevel, Horbit, Hlabel.
  by exists level, char_orbit.
Qed.
End LetterCodeProofs.

(** ** The letter code *)

Lemma chr_code (k : Z) : (0 ≤ k < 26)%Z → N_of_ascii (chr (k + 97)) = Z.to_N (k + 97).
Proof. intros H. unfold chr. apply N_ascii_embedding. lia. Qed.

Lemma letter_digit_chr (k : Z) : (0 ≤ k < 26)%Z → letter_digit (chr (k + 97)) = k.
Proof. intros H. unfold letter_digit. rewrite chr_code by done. lia. Qed.

Lemma is_lower_chr (k : Z) : (0 ≤ k < 26)%Z → is_lower (chr (k + 97)) = true.
Proof.
  intros H. unfold is_lower, in_range. rewrite chr_code by done.
  apply andb_true_iff. split; apply N.leb_le.
  - change (N_of_ascii "a") with 97%N. lia.
  - change (N_of_ascii "z") with 122%N. lia.
Qed.

Lemma number_from_shift (acc : Z) (code : string) :
  number_from acc code
  = acc * 26 ^ Z.of_nat (String.length code) + number_from 0 code.
Proof.
  revert acc. induction code as [|c code IH]; intros acc.
  - cbn [number_from String.length]. change (26 ^ Z.of_nat 0) with 1. lia.
  - cbn [number_from String.length].
    rewrite (IH (26 * acc + letter_digit c)), (IH (26 * 0 + letter_digit c)).
    rewrite Nat2Z.inj_succ, Z.pow_succ_r by lia. lia.
Qed.

Lemma letters_loop_zero (fuel : nat) (s : string) : letters_loop fuel 0 s = s.
Proof. by destruct fuel. Qed.

(** The loop ends within [n] rounds, on a numeral of [n] in front of [s]. *)
Lemma letters_loop_numeral (fuel : nat) (n : Z) (s : string) :
  (0 ≤ n)%Z → (Z.to_nat n ≤ fuel)%nat → all_chars is_lower s = true →
  all_chars is_lower (letters_loop fuel n s) = true ∧
  number_of (letters_loop fuel n s)
  = n * 26 ^ Z.of_nat (String.length s) + number_of s ∧
  ((0 < n)%Z → ∃ c rest, letters_loop fuel n s = String c rest ∧ c ≠ "a"%char).
Proof.
  revert n s. induction fuel as [|fuel IH]; intros n s Hn Hfuel Hs.
  - assert (n = 0) as -> by lia. cbn [letters_loop].
    split; [done|]. split; [lia | lia].
  - cbn [letters_loop]. destruct (Z.eqb_spec n 0) as [-> | Hne]; cbn [negb].
    { split; [done|]. split; [lia | lia]. }
    assert (Hmod : (0 ≤ n mod 26 < 26)%Z) by (apply Z.mod_pos_bound; lia).
    assert (Hdiv : (0 ≤ n / 26 < n)%Z).
    { split; [apply Z.div_pos; lia | apply Z.div_lt; lia]. }
    destruct (IH (n / 26) (String (chr (n mod 26 + 97)) s)) as (Hlow & Hnum & Hlead).
    + lia.
    + lia.
    + cbn [all_chars]. by rewrite is_lower_chr, Hs.
    + split; [exact Hlow|]. split.
      * rewrite Hnum. unfold number_of. cbn [number_from String.length].
        rewrite letter_digit_chr by done.
        rewrite (number_from_shift (26 * 0 + n mod 26)).
        rewrite Nat2Z.inj_succ, Z.pow_succ_r by lia.
        pose proof (Z.div_mod n 26 ltac:(lia)) as Hdm.
        set (p := 26 ^ Z.of_nat (String.length s)) in *.
        set (r := number_from 0 s) in *. nia.
      * intros _. destruct (Z.eqb_spec (n / 26) 0) as [Hz | Hz].
        -- rewrite Hz, letters_loop_zero. eexists _, _. split; [done|].
           intros Ha.
           assert (Hd : letter_digit (chr (n mod 26 + 97)) = 0) by (by rewrite Ha).
           rewrite letter_digit_chr in Hd by done.
           rewrite (Z.div_mod n 26), Hz, Hd in Hne by lia. lia.
        -- apply Hlead. lia.
Qed.

(** What the routine returns on a number that is not negative. *)
Lemma cremona_letter_code_numeral (n : Z) :
  (0 ≤ n)%Z →
  ∃ code, cremona_letter_code n = Ok code ∧
    all_chars is_lower code = true ∧ no_leading_a code ∧ number_of code = n.
Proof.
  intros Hn. unfold cremona_letter_code.
  destruct (Z.ltb_spec n 0) as [|_]; [lia|].
  destruct (Z.eqb_spec n 0) as [-> | Hne].
  - exists "a". split; [done|]. split; [done|]. split; [by left | done].
  - destruct (letters_loop_numeral (Z.to_nat n) n "" Hn ltac:(lia) eq_refl)
      as (Hlow & Hnum & Hlead).
    eexists. split; [done|]. split; [exact Hlow|]. split.
    + right. apply Hlead. lia.
    + rewrite Hnum. change (number_of "") with 0.
      change (26 ^ Z.of_nat (String.length "")) with 1. lia.
Qed.

(** C8: the label of a record is the level between the delimiters \( and
    \), a dot, and the letter code of the orbit index minus 1; the orbit
    index of a record is at least 1, and the code is made of lowercase
    letters that are the numeral of the index minus 1 in base 26 with a = 0
    and no leading a.  Line 115 derives such a label for every integer level
    and every orbit index from 1 on: level 7 gives \(7\).a, \(7\).b and
    \(7\).ba for the orbit indices 1, 2 and 27. *)
Theorem char_orbit_label_shape :
  (∀ url_character data space db asked w,
     WebNewform_init url_character cremona_letter_code data space db = (asked, Ok w) →
     ∃ level char_orbit index code,
       getattr (__dict__ w) "level" = Ok level ∧
       getattr (__dict__ w) "char_orbit" = Ok char_orbit ∧
       as_int char_orbit = Ok index ∧ (1 ≤ index)%Z ∧
       char_orbit_label w = "\(" +:+ py_str level +:+ "\)." +:+ code ∧
       all_chars is_lower code = true ∧ no_leading_a code ∧
       number_of code = index - 1) ∧
  (∀ level char_orbit : Z, (1 ≤ char_orbit)%Z →
     ∃ code,
       derive_char_orbit_label cremona_letter_code (VInt level) (VInt char_orbit)
       = Ok ("\(" +:+ str_int level +:+ "\)." +:+ code) ∧
       all_chars is_lower code = true ∧ no_leading_a code ∧
       number_of code = char_orbit - 1) ∧
  derive_char_orbit_label cremona_letter_code (VInt 7) (VInt 1) = Ok "\(7\).a" ∧
  derive_char_orbit_label cremona_letter_code (VInt 7) (VInt 2) = Ok "\(7\).b" ∧
  derive_char_orbit_label cremona_letter_code (VInt 7) (VInt 27) = Ok "\(7\).ba".
Proof.
  split; [|split; [|by repeat split]].
  - intros url_character data space db asked w H.
    apply init_char_orbit_label in H as (level & char_orbit & Hlevel & Horbit & H).
    exists level, char_orbit. unfold derive_char_orbit_label in H.
    destruct (as_int char_orbit) as [index|]; [|discriminate H].
    cbn [mbind result_bind] in H.
    destruct (cremona_letter_code (index - 1)) as [code|] eqn:Hcode; [|discriminate H].
    cbn [mbind result_bind] in H. injection H as <-.
    assert (Hpos : (1 ≤ index)%Z).
    { unfold cremona_letter_code in Hcode.
      destruct (Z.ltb_spec (index - 1) 0); [discriminate Hcode | lia]. }
    destruct (cremona_letter_code_numeral (index - 1) ltac:(lia))
      as (code' & Hcode' & Hlow & Hlead & Hnum).
    assert (code' = code) as -> by congruence.
    exists index, code. by rewrite !app_assoc_str.
  - intros level char_orbit Hpos.
    destruct (cremona_letter_code_numeral (char_orbit - 1) ltac:(lia))
      as (code & Hcode & Hlow & Hlead & Hnum).
    exists code. split; [|done].
    unfold derive_char_orbit_label. cbn [as_int mbind result_bind py_str].
    rewrite Hcode. cbn [mbind result_bind]. by rewrite !app_assoc_str.
Qed.

Lemma char_orbit_label_shape_witness :
  (∃ level char_orbit index code,
     getattr (__dict__ (built_record sample_built)) "level" = Ok level ∧
     getattr (__dict__ (built_record sample_built)) "char_orbit" = Ok char_orbit ∧
     as_int char_orbit = Ok index ∧ (1 ≤ index)%Z ∧
     char_orbit_label (built_record sample_built)
     = "\(" +:+ py_str level +:+ "\)." +:+ code ∧
     all_chars is_lower code = true ∧ no_leading_a code ∧
     number_of code = index - 1) ∧
  char_orbit_label (built_record sample_built) = "\(11\).a" ∧
  ∃ code,
    derive_char_orbit_label cremona_letter_code (VInt 7) (VInt 27)
    = Ok ("\(" +:+ str_int 7 +:+ "\)." +:+ code) ∧
    all_chars is_lower code = true ∧ no_leading_a code ∧ number_of code = 27 - 1.
Proof.
  destruct char_orbit_label_shape as (Hinit & Hshape & _).
  split; [|split; [reflexivity|]].
  - exact (Hinit url_plain sample_row None sample_db
             (sample_built.1) (built_record sample_built)
             ltac:(vm_compute; reflexivity)).
  - apply (Hshape 7 27). lia.
Defined.

(** The label is neither the bare "7.a" nor, for the orbit index 27, a
    label in aa: the level comes between delimiters, and 26 is written
    ba. *)
Lemma char_orbit_label_not_as_claimed :
  derive_char_orbit_label cremona_letter_code (VInt 7) (VInt 1) ≠ Ok "7.a" ∧
  derive_char_orbit_label cremona_letter_code (VInt 7) (VInt 2) ≠ Ok "7.b" ∧
  derive_char_orbit_label cremona_letter_code (VInt 7) (VInt 27) ≠ Ok "7.aa" ∧
  derive_char_orbit_label cremona_letter_code (VInt 7) (VInt 27) ≠ Ok "\(7\).aa" ∧
  cremona_letter_code 26 = Ok "ba".
Proof. repeat split; vm_compute; discriminate. Qed.

(** * field_display *)

Section FieldProofs.
Variable nf_display_knowl : value → string → string.
Variable field_pretty : value → string.

(** C9: without a field label (the attribute absent, or NULL) [field_display]
    returns the literal \(\Q(\nu)\); for the label "1.1.1.1" it returns what
    the knowl collaborator makes of that label under the name \(\Q\), the
    symbol of the rationals, which is another symbol than \(\Q(\nu)\).  It
    raises in neither case. *)
Theorem field_display_cases (self : WebNewform) :
  (__dict__ self !! "nf_label" = None →
     field_display nf_display_knowl field_pretty self = Ok generic_field_symbol) ∧
  (__dict__ self !! "nf_label" = Some VNone →
     field_display nf_display_knowl field_pretty self = Ok generic_field_symbol) ∧
  (__dict__ self !! "nf_label" = Some (VStr "1.1.1.1") →
     field_display nf_display_knowl field_pretty self
     = Ok (nf_display_knowl (VStr "1.1.1.1") rationals_symbol)) ∧
  rationals_symbol ≠ generic_field_symbol.
Proof.
  unfold field_display, dict_get, getattr.
  split; [|split; [|split]]; [intros -> ..|]; done.
Qed.
End FieldProofs.

Lemma field_display_cases_witness :
  field_display knowl_plain pretty_plain (bare_newform ∅) = Ok "\(\Q(\nu)\)" ∧
  field_display knowl_plain pretty_plain
    (bare_newform (<["nf_label" := VStr "1.1.1.1"]> ∅))
  = Ok (knowl_plain (VStr "1.1.1.1") "\(\Q\)").
Proof.
  split.
  - destruct (field_display_cases knowl_plain pretty_plain (bare_newform ∅))
      as (Habsent & _).
    apply Habsent. reflexivity.
  - destruct (field_display_cases knowl_plain pretty_plain
                (bare_newform (<["nf_label" := VStr "1.1.1.1"]> ∅)))
      as (_ & _ & Hrationals & _).
    apply Hrationals. reflexivity.
Defined.

(** Without a field label the value returned is not the symbol of the
    rationals. *)
Lemma field_display_not_rationals :
  __dict__ (bare_newform ∅) !! "nf_label" = None ∧
  field_display knowl_plain pretty_plain (bare_newform ∅) ≠ Ok rationals_symbol.
Proof. split; [reflexivity | vm_compute; discriminate]. Qed.

(** * More on DimGrid *)

Lemma entry_table9 ma mn mo sa sn so ea en eo X typ :
  X ∈ grid_rows → typ ∈ grid_columns →
  ∃ v, entry (table9 (ma, mn, mo) (sa, sn, so) (ea, en, eo)) X typ = Ok v.
Proof.
  unfold grid_rows, grid_columns. rewrite !elem_of_cons, !elem_of_nil.
  intros [-> | [-> | [-> | []]]] [-> | [-> | [-> | []]]]; by eexists.
Qed.

(** What a sum that succeeds is made of: both operands hold the nine
    entries, and the result is the table of their sums. *)
Lemma add_inv a b g :
  DimGrid_add a (OGrid b) = Ok g →
  ∃ ma mn mo sa sn so ea en eo ma' mn' mo' sa' sn' so' ea' en' eo',
    entry a "M" "all" = Ok ma ∧ entry a "M" "new" = Ok mn ∧ entry a "M" "old" = Ok mo ∧
    entry a "S" "all" = Ok sa ∧ entry a "S" "new" = Ok sn ∧ entry a "S" "old" = Ok so ∧
    entry a "E" "all" = Ok ea ∧ entry a "E" "new" = Ok en ∧ entry a "E" "old" = Ok eo ∧
    entry b "M" "all" = Ok ma' ∧ entry b "M" "new" = Ok mn' ∧ entry b "M" "old" = Ok mo' ∧
    entry b "S" "all" = Ok sa' ∧ entry b "S" "new" = Ok sn' ∧ entry b "S" "old" = Ok so' ∧
    entry b "E" "all" = Ok ea' ∧ entry b "E" "new" = Ok en' ∧ entry b "E" "old" = Ok eo' ∧
    g = table9 (ma + ma', mn + mn', mo + mo') (sa + sa', sn + sn', so + so')
               (ea + ea', en + en', eo + eo').
Proof.
  unfold DimGrid_add. cbn [for_each mbind result_bind].
  intros H.
  repeat match type of H with
  | context [entry ?x ?X ?t] =>
      let E := fresh "E" in
      destruct (entry x X t) eqn:E; cbn [for_each mbind result_bind] in H;
      [|discriminate H]
  end.
  injection H as <-.
  do 18 eexists. repeat (split; [reflexivity|]). reflexivity.
Qed.

Lemma entry_raises g X typ e :
  entry g X typ = Raise e → e = KeyError X ∨ e = KeyError typ.
Proof.
  unfold entry, getitem. destruct (_grid g !! X) as [row|]; cbn [mbind result_bind].
  - destruct (row !! typ); intros [= <-]; by right.
  - intros [= <-]. by left.
Qed.

Ltac rows_and_columns HX Ht :=
  unfold grid_rows, grid_columns in HX, Ht;
  rewrite !elem_of_cons, !elem_of_nil in HX, Ht;
  destruct HX as [-> | [-> | [-> | []]]], Ht as [-> | [-> | [-> | []]]].

(** The sum, entry by entry. *)
Lemma add_sums a b g :
  DimGrid_add a (OGrid b) = Ok g →
  is_table g ∧
  ∀ X typ, X ∈ grid_rows → typ ∈ grid_columns →
    ∃ x y, entry a X typ = Ok x ∧ entry b X typ = Ok y ∧
           entry g X typ = Ok (x + y).
Proof.
  intros Hg.
  apply add_inv in Hg
    as (ma & mn & mo & sa & sn & so & ea & en & eo &
        ma' & mn' & mo' & sa' & sn' & so' & ea' & en' & eo' &
        ? & ? & ? & ? & ? & ? & ? & ? & ? & ? & ? & ? & ? & ? & ? & ? & ? & ? & ->).
  split; [apply table9_is_table|].
  intros X typ HX Ht. rows_and_columns HX Ht;
    eexists _, _; (split; [eassumption|]); (split; [eassumption|]); reflexivity.
Qed.

(** X1: a sum of two grids succeeds exactly when both hold the nine entries;
    the result is then a 3x3 table whose entries are the sums, whatever else
    the operands hold. *)
Theorem DimGrid_add_shape (a b : DimGrid) :
  ((∀ X typ, X ∈ grid_rows → typ ∈ grid_columns →
      (∃ x, entry a X typ = Ok x) ∧ (∃ y, entry b X typ = Ok y)) →
   ∃ g, DimGrid_add a (OGrid b) = Ok g) ∧
  (∀ g, DimGrid_add a (OGrid b) = Ok g →
     is_table g ∧
     ∀ X typ, X ∈ grid_rows → typ ∈ grid_columns →
       ∃ x y, entry a X typ = Ok x ∧ entry b X typ = Ok y ∧
              entry g X typ = Ok (x + y)).
Proof.
  split.
  - intros H.
    assert (Hin : ∀ X typ, X ∈ grid_rows → typ ∈ grid_columns →
              (∃ x, entry a X typ = Ok x) ∧ (∃ y, entry b X typ = Ok y)) by exact H.
    unfold DimGrid_add. cbn [for_each mbind result_bind].
    repeat match goal with
    | |- context [entry ?x ?X ?t] =>
        let v := fresh "v" in let E := fresh "E" in
        assert (∃ v, entry x X t = Ok v) as [v E]
          by (apply (Hin X t); unfold grid_rows, grid_columns;
              rewrite !elem_of_cons; tauto);
        rewrite E; cbn [for_each mbind result_bind]
    end.
    by eexists.
  - intros g Hg. by apply add_sums.
Qed.

Lemma DimGrid_add_shape_witness :
  is_table (table9 (14, 7, 7) (11, 7, 4) (3, 0, 3)) ∧
  ∀ X typ, X ∈ grid_rows → typ ∈ grid_columns →
    ∃ x y, entry sample_wide X typ = Ok x ∧ entry sample_b X typ = Ok y ∧
           entry (table9 (14, 7, 7) (11, 7, 4) (3, 0, 3)) X typ = Ok (x + y).
Proof.
  destruct (DimGrid_add_shape sample_wide sample_b) as [_ H].
  apply H. reflexivity.
Defined.

(** X2: [+] raises TypeError for an integer other than 0 and for any operand
    that is neither an integer nor a grid; with a grid as operand the only
    exception is a KeyError for a missing row or column, and a grid without
    the row M fails at once with KeyError('M'). *)
Theorem DimGrid_add_raises (a : DimGrid) :
  (∀ z, z ≠ 0 → DimGrid_add a (OInt z) = Raise TypeError) ∧
  DimGrid_add a OOther = Raise TypeError ∧
  (∀ b e, DimGrid_add a (OGrid b) = Raise e →
     ∃ k, e = KeyError k ∧ (k ∈ grid_rows ∨ k ∈ grid_columns)) ∧
  (∀ b, _grid a !! "M" = None → DimGrid_add a (OGrid b) = Raise (KeyError "M")).
Proof.
  split; [|split; [|split]].
  - intros z Hz. unfold DimGrid_add. by destruct z.
  - reflexivity.
  - intros b e. unfold DimGrid_add. cbn [for_each mbind result_bind].
    intros H.
    repeat match type of H with
    | context [entry ?x ?X ?t] =>
        let E := fresh "E" in
        destruct (entry x X t) eqn:E; cbn [for_each mbind result_bind] in H;
        [|injection H as <-; apply entry_raises in E as [-> | ->];
          eexists; (split; [reflexivity|]);
          unfold grid_rows, grid_columns; rewrite !elem_of_cons; tauto]
    end.
    discriminate H.
  - intros b Hm.
    assert (E : entry a "M" "all" = Raise (KeyError "M")).
    { unfold entry, getitem. by rewrite Hm. }
    unfold DimGrid_add. cbn [for_each mbind result_bind].
    rewrite E. reflexivity.
Qed.

Lemma DimGrid_add_raises_witness :
  DimGrid_add sample_a (OInt 3) = Raise TypeError ∧
  DimGrid_add (mkDimGrid ∅) (OGrid sample_b) = Raise (KeyError "M").
Proof.
  split.
  - destruct (DimGrid_add_raises sample_a) as [H _]. apply H. discriminate.
  - destruct (DimGrid_add_raises (mkDimGrid ∅)) as (_ & _ & _ & H).
    apply H. reflexivity.
Defined.

(** X3: addition keeps all = new + old: a row balanced in both operands is
    balanced in their sum. *)
Theorem DimGrid_add_balanced (a b g : DimGrid) (X : string) :
  DimGrid_add a (OGrid b) = Ok g → X ∈ grid_rows →
  row_balanced a X → row_balanced b X → row_balanced g X.
Proof.
  intros Hg HX (al & nw & ol & Hal & Hnw & Hol & Ha) (al' & nw' & ol' & Hal' & Hnw' & Hol' & Hb).
  destruct (add_sums a b g Hg) as [_ Hsum].
  destruct (Hsum X "all" HX) as (x1 & y1 & H1 & H1' & G1);
    [unfold grid_columns; rewrite !elem_of_cons; tauto|].
  destruct (Hsum X "new" HX) as (x2 & y2 & H2 & H2' & G2);
    [unfold grid_columns; rewrite !elem_of_cons; tauto|].
  destruct (Hsum X "old" HX) as (x3 & y3 & H3 & H3' & G3);
    [unfold grid_columns; rewrite !elem_of_cons; tauto|].
  exists (x1 + y1), (x2 + y2), (x3 + y3).
  repeat (split; [assumption|]).
  assert (x1 = al) by congruence. assert (x2 = nw) by congruence.
  assert (x3 = ol) by congruence. assert (y1 = al') by congruence.
  assert (y2 = nw') by congruence. assert (y3 = ol') by congruence. lia.
Qed.

Lemma DimGrid_add_balanced_witness :
  row_balanced (table9 (14, 7, 7) (11, 7, 4) (3, 0, 3)) "S".
Proof.
  apply (DimGrid_add_balanced sample_a sample_b _ "S").
  - reflexivity.
  - unfold grid_rows. rewrite !elem_of_cons. tauto.
  - exists 4, 3, 1. repeat split; reflexivity.
  - exists 7, 4, 3. repeat split; reflexivity.
Defined.

(** X4: a grid built by [from_db] is a 3x3 table, so [g[X]] is a row with the
    columns all, new, old for X among M, S, E and a KeyError for any other X;
    and its new dimensions add up: new of M is new of S plus new of E. *)
Theorem from_db_shape (data : gmap string value) (g : DimGrid) :
  from_db data = Ok g →
  is_table g ∧
  (∀ X, X ∈ grid_rows →
     ∃ row, DimGrid_getitem g X = Ok row ∧
            dom row = ({["all"; "new"; "old"]} : gset string)) ∧
  (∀ X, X ∉ grid_rows → DimGrid_getitem g X = Raise (KeyError X)) ∧
  ∃ mn sn en, entry g "M" "new" = Ok mn ∧ entry g "S" "new" = Ok sn ∧
              entry g "E" "new" = Ok en ∧ mn = sn + en.
Proof.
  intros H. apply from_db_inv in H as (m & d & en & c & e & _ & _ & _ & _ & _ & ->).
  pose proof (table9_is_table (m, d + en, m - d - en) (c, d, c - d) (e, en, e - en))
    as Ht.
  split; [exact Ht|]. split; [|split].
  - intros X HX. unfold grid_rows in HX. rewrite !elem_of_cons, elem_of_nil in HX.
    destruct HX as [-> | [-> | [-> | []]]]; eexists; (split; [reflexivity|]);
      apply row3_dom.
  - intros X HX. unfold DimGrid_getitem, getitem.
    destruct (_ !! X) as [row|] eqn:E; [|done].
    destruct HX. destruct Ht as [Hdom _].
    assert (Hin : X ∈ dom (_grid (table9 (m, d + en, m - d - en) (c, d, c - d)
                                    (e, en, e - en)))) by (apply elem_of_dom; eauto).
    rewrite Hdom in Hin. unfold grid_rows. rewrite !elem_of_cons.
    rewrite !elem_of_union, !elem_of_singleton in Hin. tauto.
  - exists (d + en), d, en. repeat split; reflexivity.
Qed.

Lemma from_db_shape_witness :
  ∃ g, from_db sample_row = Ok g ∧ is_table g ∧
       DimGrid_getitem g "X" = Raise (KeyError "X") ∧
       entry g "M" "new" = Ok 3.
Proof.
  eexists. split; [reflexivity|].
  destruct (from_db_shape sample_row _ eq_refl) as (Ht & _ & Hother & _).
  split; [exact Ht|]. split; [|reflexivity].
  apply Hother. unfold grid_rows. rewrite !elem_of_cons, elem_of_nil.
  intros [? | [? | [? | []]]]; discriminate.
Defined.

Ltac in_columns := unfold dimension_columns; rewrite !elem_of_cons; tauto.

(** X5: [from_db] succeeds exactly when the five dimension columns are there
    and are integers.  A missing column raises the KeyError of that column
    when the columns read before it are integers. *)
Theorem from_db_succeeds_iff (data : gmap string value) :
  ((∃ g, from_db data = Ok g) ↔
   ∀ k, k ∈ dimension_columns → ∃ z, int_item data k = Ok z) ∧
  (data !! "mf_dim" = None → from_db data = Raise (KeyError "mf_dim")) ∧
  (∀ m, int_item data "mf_dim" = Ok m → data !! "dim" = None →
     from_db data = Raise (KeyError "dim")) ∧
  (∀ m d, int_item data "mf_dim" = Ok m → int_item data "dim" = Ok d →
     data !! "eis_new_dim" = None → from_db data = Raise (KeyError "eis_new_dim")) ∧
  (∀ m d e, int_item data "mf_dim" = Ok m → int_item data "dim" = Ok d →
     int_item data "eis_new_dim" = Ok e →
     data !! "cusp_dim" = None → from_db data = Raise (KeyError "cusp_dim")) ∧
  (∀ m d e c, int_item data "mf_dim" = Ok m → int_item data "dim" = Ok d →
     int_item data "eis_new_dim" = Ok e → int_item data "cusp_dim" = Ok c →
     data !! "eis_dim" = None → from_db data = Raise (KeyError "eis_dim")).
Proof.
  assert (Hmiss : ∀ k, data !! k = None → getitem data k = Raise (KeyError k)).
  { intros k Hk. unfold getitem. by rewrite Hk. }
  split; [|split; [|split; [|split; [|split]]]].
  - split.
    + intros [g Hg]. apply from_db_inv in Hg as (m & d & en & c & e & ? & ? & ? & ? & ? & _).
      intros k Hk. unfold dimension_columns in Hk.
      rewrite !elem_of_cons, elem_of_nil in Hk.
      destruct Hk as [-> | [-> | [-> | [-> | [-> | []]]]]]; eauto.
    + intros H.
      assert (Hk : ∀ k, k ∈ dimension_columns → ∃ z, int_item data k = Ok z) by exact H.
      destruct (Hk "mf_dim") as [m Hm]; [in_columns|].
      destruct (Hk "dim") as [d Hd]; [in_columns|].
      destruct (Hk "eis_new_dim") as [en Hen]; [in_columns|].
      destruct (Hk "cusp_dim") as [c Hc]; [in_columns|].
      destruct (Hk "eis_dim") as [e He]; [in_columns|].
      eexists. by apply from_db_ok.
  - intros H. unfold from_db. by rewrite (Hmiss _ H).
  - intros m Hm H. apply int_item_inv in Hm as (vm & Em & _).
    unfold from_db. by rewrite Em, (Hmiss _ H).
  - intros m d Hm Hd H.
    apply int_item_inv in Hm as (vm & Em & _), Hd as (vd & Ed & _).
    unfold from_db. by rewrite Em, Ed, (Hmiss _ H).
  - intros m d e Hm Hd He H.
    apply int_item_inv in Hm as (vm & Em & Hm), Hd as (vd & Ed & Hd),
      He as (ve & Ee & He).
    unfold from_db. rewrite Em, Ed, Ee. cbn [mbind result_bind].
    rewrite (value_add_int _ _ _ _ Hd He), (value_sub_int _ _ _ _ Hm Hd).
    cbn [mbind result_bind].
    rewrite (value_sub_int (VInt (m - d)) ve _ _ eq_refl He).
    by rewrite (Hmiss _ H).
  - intros m d e c Hm Hd He Hc H.
    apply int_item_inv in Hm as (vm & Em & Hm), Hd as (vd & Ed & Hd),
      He as (ve & Ee & He), Hc as (vc & Ec & Hc).
    unfold from_db. rewrite Em, Ed, Ee, Ec. cbn [mbind result_bind].
    rewrite (value_add_int _ _ _ _ Hd He), (value_sub_int _ _ _ _ Hm Hd).
    cbn [mbind result_bind].
    rewrite (value_sub_int (VInt (m - d)) ve _ _ eq_refl He).
    rewrite (value_sub_int _ _ _ _ Hc Hd).
    by rewrite (Hmiss _ H).
Qed.

Lemma from_db_succeeds_iff_witness :
  (∃ g, from_db sample_row = Ok g) ∧
  from_db (delete "cusp_dim" sample_row) = Raise (KeyError "cusp_dim").
Proof.
  split.
  - destruct (from_db_succeeds_iff sample_row) as [[_ H] _]. apply H.
    intros k Hk. unfold dimension_columns in Hk.
    rewrite !elem_of_cons, elem_of_nil in Hk.
    destruct Hk as [-> | [-> | [-> | [-> | [-> | []]]]]]; by eexists.
  - destruct (from_db_succeeds_iff (delete "cusp_dim" sample_row))
      as (_ & _ & _ & _ & H & _).
    apply (H 5 2 1); reflexivity.
Defined.

(** X6: [from_db] is additive: when each dimension column of a third row is
    the sum of that column in two rows, the sum of the two grids is the grid
    of the third row. *)
Theorem from_db_additive (d1 d2 d3 : gmap string value) (g1 g2 : DimGrid) :
  from_db d1 = Ok g1 → from_db d2 = Ok g2 →
  (∀ k x y, k ∈ dimension_columns → int_item d1 k = Ok x → int_item d2 k = Ok y →
     int_item d3 k = Ok (x + y)) →
  DimGrid_add g1 (OGrid g2) = from_db d3.
Proof.
  intros H1 H2 H3.
  apply from_db_inv in H1 as (m & d & en & c & e & Em & Ed & Een & Ec & Ee & ->).
  apply from_db_inv in H2 as (m' & d' & en' & c' & e' & Em' & Ed' & Een' & Ec' & Ee' & ->).
  rewrite add_table9.
  rewrite (from_db_ok d3 (m + m') (d + d') (en + en') (c + c') (e + e'));
    try (eapply H3; [|eassumption..];
         unfold dimension_columns; rewrite !elem_of_cons; tauto).
  f_equal. triples.
Qed.

Lemma from_db_additive_witness :
  DimGrid_add (table9 (5, 3, 2) (4, 2, 2) (1, 1, 0))
    (OGrid (table9 (10, 6, 4) (8, 4, 4) (2, 2, 0)))
  = from_db (sample_rows_2 3).
Proof.
  apply (from_db_additive (sample_rows_2 1) (sample_rows_2 2) (sample_rows_2 3));
    [reflexivity | reflexivity |].
  intros k x y Hk. unfold dimension_columns in Hk.
  rewrite !elem_of_cons, elem_of_nil in Hk.
  destruct Hk as [-> | [-> | [-> | [-> | [-> | []]]]]];
    intros [= <-] [= <-]; reflexivity.
Defined.

(** X25: which exception [from_db] raises.  It raises nothing but TypeError
    and the KeyError of a missing dimension column.  The first three columns
    are looked up before anything is computed with them, so a missing dim or
    eis_new_dim is reported whatever the columns before it hold; once the
    three are there and one of them is not an integer, the exception is
    TypeError, also when a later column is missing. *)
Theorem from_db_exception_order (data : gmap string value) :
  (∀ e, from_db data = Raise e →
     e = TypeError ∨ ∃ k, k ∈ dimension_columns ∧ data !! k = None ∧ e = KeyError k) ∧
  (∀ vm, data !! "mf_dim" = Some vm → data !! "dim" = None →
     from_db data = Raise (KeyError "dim")) ∧
  (∀ vm vd, data !! "mf_dim" = Some vm → data !! "dim" = Some vd →
     data !! "eis_new_dim" = None → from_db data = Raise (KeyError "eis_new_dim")) ∧
  (∀ vm vd ve, data !! "mf_dim" = Some vm → data !! "dim" = Some vd →
     data !! "eis_new_dim" = Some ve →
     ¬ (∃ m d e, as_int vm = Ok m ∧ as_int vd = Ok d ∧ as_int ve = Ok e) →
     from_db data = Raise TypeError).
Proof.
  assert (Hget : ∀ k, getitem data k
                      = match data !! k with Some v => Ok v | None => Raise (KeyError k) end)
    by done.
  split; [|split; [|split]].
  - intros e. unfold from_db. rewrite !Hget.
    assert (Has : ∀ v e', as_int v = Raise e' → e' = TypeError)
      by (intros [] e' [=]; done).
    assert (Hadd : ∀ a b e', value_add a b = Raise e' → e' = TypeError)
      by (intros [] [] e' [=]; done).
    assert (Hsub : ∀ a b e', value_sub a b = Raise e' → e' = TypeError).
    { intros a b e'. unfold value_sub.
      destruct (as_int a) eqn:Ea; cbn [mbind result_bind];
        [|intros [= <-]; by apply Has in Ea].
      destruct (as_int b) eqn:Eb; cbn [mbind result_bind]; [done|].
      intros [= <-]. by apply Has in Eb. }
    assert (Hkey : ∀ k, k ∈ dimension_columns → data !! k = None →
              e = KeyError k →
              e = TypeError ∨ ∃ k, k ∈ dimension_columns ∧ data !! k = None ∧ e = KeyError k)
      by (intros k ? ? ?; right; by exists k).
    destruct (data !! "mf_dim") as [vm|] eqn:Em; cbn [mbind result_bind];
      [|intros [= <-]; apply (Hkey "mf_dim"); [in_columns | done..]].
    destruct (data !! "dim") as [vd|] eqn:Ed; cbn [mbind result_bind];
      [|intros [= <-]; apply (Hkey "dim"); [in_columns | done..]].
    destruct (data !! "eis_new_dim") as [ve|] eqn:Ee; cbn [mbind result_bind];
      [|intros [= <-]; apply (Hkey "eis_new_dim"); [in_columns | done..]].
    destruct (value_add vd ve) as [mn|] eqn:E0; cbn [mbind result_bind];
      [|intros [= <-]; left; by apply Hadd in E0].
    destruct (value_sub vm vd) as [ab|] eqn:E1; cbn [mbind result_bind];
      [|intros [= <-]; left; by apply Hsub in E1].
    destruct (value_sub ab ve) as [mo|] eqn:E2; cbn [mbind result_bind];
      [|intros [= <-]; left; by apply Hsub in E2].
    destruct (data !! "cusp_dim") as [vc|] eqn:Ec; cbn [mbind result_bind];
      [|intros [= <-]; apply (Hkey "cusp_dim"); [in_columns | done..]].
    destruct (value_sub vc vd) as [so|] eqn:E3; cbn [mbind result_bind];
      [|intros [= <-]; left; by apply Hsub in E3].
    destruct (data !! "eis_dim") as [vs|] eqn:Es; cbn [mbind result_bind];
      [|intros [= <-]; apply (Hkey "eis_dim"); [in_columns | done..]].
    destruct (value_sub vs ve) as [eo|] eqn:E4; cbn [mbind result_bind];
      [|intros [= <-]; left; by apply Hsub in E4].
    repeat match goal with
    | |- context [as_int ?v] =>
        let E := fresh "E" in
        destruct (as_int v) eqn:E; cbn [mbind result_bind];
          [|intros [= <-]; left; by apply Has in E]
    end.
    done.
  - intros vm Hm Hd. unfold from_db. by rewrite !Hget, Hm, Hd.
  - intros vm vd Hm Hd He. unfold from_db. by rewrite !Hget, Hm, Hd, He.
  - intros vm vd ve Hm Hd He Hnot. unfold from_db. rewrite !Hget, Hm, Hd, He.
    cbn [mbind result_bind].
    destruct vm, vd, ve; try reflexivity; destruct Hnot; by eexists _, _, _.
Qed.

Lemma from_db_exception_order_witness :
  from_db (<["mf_dim" := VStr "x"]> ∅) = Raise (KeyError "dim") ∧
  from_db (<["mf_dim" := VInt 5]> (<["dim" := VStr "x"]> (<["eis_new_dim" := VStr "y"]> ∅)))
  = Raise TypeError.
Proof.
  split.
  - destruct (from_db_exception_order (<["mf_dim" := VStr "x"]> ∅)) as (_ & H & _).
    apply (H (VStr "x")); reflexivity.
  - destruct (from_db_exception_order
                (<["mf_dim" := VInt 5]> (<["dim" := VStr "x"]>
                   (<["eis_new_dim" := VStr "y"]> ∅)))) as (_ & _ & _ & H).
    apply (H (VInt 5) (VStr "x") (VStr "y")); [reflexivity..|].
    intros (m & d & e & _ & Hd & _). discriminate Hd.
Defined.

(** * More on the q-expansion formatter *)

Lemma for_each_raises {A S} (P : exn → Prop) (xs : list A) (body : S → A → result S) s e :
  (∀ s x e, body s x = Raise e → P e) →
  for_each xs body s = Raise e → P e.
Proof.
  intros Hbody. revert s. induction xs as [|x xs IH]; intros s H; [done|].
  rewrite for_each_cons in H.
  destruct (body s x) as [s'|e'] eqn:E; cbn [mbind result_bind] in H.
  - by apply (IH s').
  - injection H as <-. by apply (Hbody s x).
Qed.

Lemma for_each_steps {A S} (xs : list A) (body : S → A → result S) s s' x :
  for_each xs body s = Ok s' → x ∈ xs → ∃ s1 s2, body s1 x = Ok s2.
Proof.
  revert s. induction xs as [|y xs IH]; intros s H Hx.
  - by apply elem_of_nil in Hx.
  - rewrite for_each_cons in H.
    destruct (body s y) as [s1|] eqn:E; [|done]. cbn [mbind result_bind] in H.
    apply elem_of_cons in Hx as [-> | Hx]; [by eexists _, _|].
    by apply (IH s1).
Qed.

Lemma for_each_ext {A S} (xs : list A) (body1 body2 : S → A → result S) s :
  (∀ s x, x ∈ xs → body1 s x = body2 s x) →
  for_each xs body1 s = for_each xs body2 s.
Proof.
  revert s. induction xs as [|x xs IH]; intros s H; [done|].
  rewrite !for_each_cons, H by (apply elem_of_cons; by left).
  destruct (body2 s x) as [s'|]; [|done]. cbn [mbind result_bind].
  apply IH. intros s1 y Hy. apply H, elem_of_cons. by right.
Qed.

Lemma list_item_raises {A} (l : list A) i e : list_item l i = Raise e → e = IndexError.
Proof. unfold list_item. destruct (l !! i); by intros [= <-]. Qed.

Lemma list_item_lt {A} (l : list A) i a : list_item l i = Ok a → (i < length l)%nat.
Proof.
  unfold list_item. destruct (l !! i) eqn:E; [|done].
  intros _. by apply lookup_lt_Some in E.
Qed.

Lemma term_of_raises d row e : term_of d row = Raise e → e = IndexError.
Proof.
  unfold term_of. apply (for_each_raises (fun e => e = IndexError)).
  intros acc i e' H.
  destruct (list_item row i) eqn:E; [done|].
  injection H as <-. by apply list_item_raises in E.
Qed.

Lemma term_of_length d row t : term_of d row = Ok t → (d ≤ length row)%nat.
Proof.
  unfold term_of. intros H.
  destruct (decide (d ≤ length row)%nat) as [|Hn]; [done|].
  destruct (for_each_steps _ _ _ _ (length row) H) as (acc & acc' & Hstep).
  { apply elem_of_seq. lia. }
  destruct (list_item row (length row)) eqn:E; [|done].
  apply list_item_lt in E. lia.
Qed.

Lemma term_of_take d row : term_of d (take d row) = term_of d row.
Proof.
  unfold term_of. apply for_each_ext. intros acc i Hi.
  apply elem_of_seq in Hi. unfold list_item.
  by rewrite lookup_take_lt by lia.
Qed.

Section FormatterMore.
Variable latex : list Z → nat → string.

Lemma qexp_step_raises eigseq d s j e :
  qexp_step latex eigseq d s j = Raise e → e = IndexError.
Proof.
  unfold qexp_step. intros H.
  destruct (list_item eigseq j) as [row|] eqn:E1; cbn [mbind result_bind] in H;
    [|injection H as <-; by apply list_item_raises in E1].
  destruct (term_of d row) as [t|] eqn:E2; cbn [mbind result_bind] in H;
    [|injection H as <-; by apply term_of_raises in E2].
  destruct (negb (is_zero t)); [|done].
  destruct (negb (String.eqb (str s) "")); [|done].
  cbn [str] in H.
  destruct (latex t j) as [|c lt]; [by injection H as <-|].
  cbn [first_char mbind result_bind] in H. by destruct (negb (Ascii.eqb c "-")).
Qed.

Lemma qexp_step_length eigseq d s j s' row :
  eigseq !! j = Some row → qexp_step latex eigseq d s j = Ok s' →
  (d ≤ length row)%nat.
Proof.
  intros Hrow. unfold qexp_step. rewrite (list_item_Some _ _ _ Hrow).
  cbn [mbind result_bind]. destruct (term_of d row) as [t|] eqn:E; [|done].
  intros _. by apply term_of_length in E.
Qed.

(** X7: the formatter raises no exception but IndexError, and it raises it
    whenever a row is shorter than the first row. *)
Theorem qexp_index_error (eigseq : list (list Z)) :
  (∀ e, eigs_as_seqseq_to_qexp latex eigseq = Raise e → e = IndexError) ∧
  (∀ (j : nat) row, eigseq !! j = Some row →
     (length row < length (default [] (head eigseq)))%nat →
     eigs_as_seqseq_to_qexp latex eigseq = Raise IndexError).
Proof.
  assert (Hraise : ∀ e, eigs_as_seqseq_to_qexp latex eigseq = Raise e → e = IndexError).
  { intros e. unfold eigs_as_seqseq_to_qexp.
    destruct (bool_decide (length eigseq = 0%nat)); [done|].
    destruct (list_item eigseq 0) as [row0|] eqn:E0; cbn [mbind result_bind];
      [|intros [= <-]; by apply list_item_raises in E0].
    destruct (for_each _ _ _) as [s|e'] eqn:E; cbn [mbind result_bind]; [done|].
    intros [= <-]. revert E. apply (for_each_raises (fun e => e = IndexError)).
    intros s x e. apply qexp_step_raises. }
  split; [exact Hraise|].
  intros j row Hrow Hshort.
  destruct (eigs_as_seqseq_to_qexp latex eigseq) as [out|e] eqn:E;
    [|by rewrite (Hraise e eq_refl)].
  exfalso. unfold eigs_as_seqseq_to_qexp in E.
  destruct eigseq as [|row0 rest]; [by rewrite lookup_nil in Hrow|].
  rewrite bool_decide_eq_false_2 in E by done.
  rewrite (list_item_Some (row0 :: rest) 0%nat row0 eq_refl) in E.
  cbn [mbind result_bind] in E.
  destruct (for_each _ _ _) as [s|] eqn:Eloop; [|done].
  destruct (for_each_steps _ _ _ _ j Eloop) as (s1 & s2 & Hstep).
  { apply elem_of_seq. apply lookup_lt_Some in Hrow. lia. }
  apply (qexp_step_length _ _ _ _ _ _ Hrow) in Hstep.
  change (default [] (head (row0 :: rest))) with row0 in Hshort. lia.
Qed.

(** X8: the entries of a row beyond the length of the first row are never
    read: cutting every row to that length changes nothing. *)
Theorem qexp_ignores_extra_columns (eigseq : list (list Z)) :
  eigs_as_seqseq_to_qexp latex eigseq
  = eigs_as_seqseq_to_qexp latex (take (length (default [] (head eigseq))) <$> eigseq).
Proof.
  destruct eigseq as [|row0 rest]; [reflexivity|].
  change (default [] (head (row0 :: rest))) with row0. set (d := length row0).
  unfold eigs_as_seqseq_to_qexp.
  rewrite length_fmap, !bool_decide_eq_false_2 by done.
  rewrite (list_item_Some (row0 :: rest) 0%nat row0 eq_refl).
  rewrite (list_item_Some (take d <$> row0 :: rest) 0%nat row0)
    by (cbn [fmap list_fmap lookup list_lookup]; unfold d; by rewrite firstn_all).
  cbn [mbind result_bind]. fold d.
  rewrite (for_each_ext _ (qexp_step latex (row0 :: rest) d)
             (qexp_step latex (take d <$> row0 :: rest) d)); [done|].
  intros s j _. unfold qexp_step, list_item.
  rewrite list_lookup_fmap.
  destruct ((row0 :: rest) !! j) as [row|]; [|done].
  cbn [fmap option_fmap option_map mbind result_bind].
  by rewrite term_of_take.
Qed.

(** X9: a sequence whose coefficients are all zero is typeset as the bare
    remainder, with no term before it. *)
Theorem qexp_all_zero (eigseq : list (list Z)) :
  eigseq ≠ [] →
  (∀ (j : nat) row, eigseq !! j = Some row →
     (length (default [] (head eigseq)) ≤ length row)%nat ∧
     is_zero (coefficient (length (default [] (head eigseq))) row) = true) →
  eigs_as_seqseq_to_qexp latex eigseq = Ok (remainder (length eigseq)).
Proof.
  destruct eigseq as [|row0 rest]; [done|]. intros _ H.
  change (default [] (head (row0 :: rest))) with row0 in H.
  set (d := length row0) in *.
  unfold eigs_as_seqseq_to_qexp.
  rewrite bool_decide_eq_false_2 by done.
  rewrite (list_item_Some (row0 :: rest) 0%nat row0 eq_refl).
  cbn [mbind result_bind]. fold d.
  assert (Hkept : ∀ rows j0,
    (∀ row, row ∈ rows → is_zero (coefficient d row) = true) →
    kept_from latex d j0 rows = []).
  { induction rows as [|r rows IH]; intros j0 Hr; [done|].
    cbn [kept_from]. rewrite Hr by (apply elem_of_cons; by left).
    apply IH. intros r' Hr'. apply Hr, elem_of_cons. by right. }
  destruct (qexp_loop latex (row0 :: rest) d (row0 :: rest) [] [] eq_refl)
    as (acc' & _ & Hacc & Hrun).
  - intros j row Hj. by apply (H j).
  - intros j row Hj Hz. destruct (H j row Hj) as [_ Hz']. congruence.
  - apply closed_nil.
  - change (length []) with 0%nat in Hrun.
    change (state_of []) with (Str "") in Hrun.
    rewrite Hrun. cbn [mbind result_bind].
    rewrite Hkept in Hacc.
    + by subst acc'.
    + intros row Hin. apply list_elem_of_lookup in Hin as [j Hj]. by apply (H j).
Qed.
End FormatterMore.

Lemma qexp_index_error_witness :
  eigs_as_seqseq_to_qexp latex_plain [[1; 2]; [3]] = Raise IndexError.
Proof.
  destruct (qexp_index_error latex_plain [[1; 2]; [3]]) as [_ H].
  apply (H 1%nat [3]); [reflexivity | simpl; lia].
Defined.

Lemma qexp_all_zero_witness :
  eigs_as_seqseq_to_qexp latex_plain [[0; 0]; [0; 0; 5]; [0; 0]] = Ok "\(+O(q^{3})\)".
Proof.
  apply (qexp_all_zero latex_plain [[0; 0]; [0; 0; 5]; [0; 0]]); [discriminate|].
  intros [|[|[|j]]] row Hj; try discriminate Hj;
    injection Hj as <-; split; simpl; (lia || reflexivity).
Defined.

(** * More on the eigenvalue rows *)

Lemma eigen_loop_result i evs b q b' l :
  eigen_loop i evs b q = Ok (b', l) →
  l = (q ++ (vector <$> with_vectors evs))%list ∧
  b' = b && forallb (fun ev => negb (only_traces (ev_an ev))) evs.
Proof.
  revert i q. induction evs as [|ev evs IH]; intros i q H.
  - injection H as <- <-. by rewrite app_nil_r, andb_true_r.
  - rewrite eigen_loop_cons in H.
    destruct (negb (Z.eqb (ev_n ev) (i + 1))); [done|].
    cbn [with_vectors forallb].
    destruct (only_traces (ev_an ev)) eqn:Ht.
    + injection H as <- <-. by rewrite app_nil_r, andb_false_r.
    + apply IH in H as [-> ->]. split; [by rewrite <- app_assoc | done].
Qed.

Lemma all_with_vectors evs :
  forallb (fun ev => negb (only_traces (ev_an ev))) evs = true ↔
  Forall (fun ev => only_traces (ev_an ev) = false) evs.
Proof.
  induction evs as [|ev evs IH]; [done|]. cbn [forallb].
  rewrite andb_true_iff, Forall_cons, IH, negb_true_iff. done.
Qed.

(** X10: what the eigenvalue step leaves when it succeeds.  On a search
    result that is false in a condition (an empty list) nothing is set and
    the expansion is not exact.  Otherwise [qexp] is the zero vector followed
    by the vectors of the rows before the first row without one, [qexp_prec]
    is the number of those rows, and the expansion is exact exactly when
    every row has a vector. *)
Theorem load_eigenvalues_layout (attrs : gmap string value) (eigenvals : found)
    (q : qexp_attrs) :
  load_eigenvalues attrs eigenvals = Ok q →
  (found_truth eigenvals = false → q = mkQexp false None None) ∧
  (found_truth eigenvals = true →
     ∃ dim, (v ← getattr attrs "dim"; as_int v) = Ok dim ∧
       q_qexp q = Some (replicate (Z.to_nat dim) 0
                          :: (vector <$> with_vectors (rows_of eigenvals))) ∧
       q_qexp_prec q = Some (Z.of_nat (length (with_vectors (rows_of eigenvals)))) ∧
       (q_has_exact_qexp q = true ↔
        Forall (fun ev => only_traces (ev_an ev) = false) (rows_of eigenvals))).
Proof.
  unfold load_eigenvalues. intros H.
  destruct (found_truth eigenvals).
  - split; [done|]. intros _.
    destruct (v ← getattr attrs "dim"; as_int v) as [dim|] eqn:Hdim; [|done].
    cbn [mbind result_bind] in H.
    destruct (eigen_loop 0 (rows_of eigenvals) true [replicate (Z.to_nat dim) 0])
      as [[b l]|] eqn:Hloop; [|done].
    cbn [mbind result_bind] in H. injection H as <-.
    apply eigen_loop_result in Hloop as [-> ->].
    exists dim. split; [done|]. split; [done|]. split.
    + cbn [q_qexp_prec]. f_equal. rewrite length_app, length_fmap. simpl. lia.
    + cbn [q_has_exact_qexp andb]. apply all_with_vectors.
  - injection H as <-. split; [done | done].
Qed.

Lemma load_eigenvalues_layout_witness :
  ∃ q, load_eigenvalues sample_row
         (AsIterator [mkRow 1 (Some [1; 0]); mkRow 2 None; mkRow 3 (Some [2; 2])]) = Ok q ∧
       q_qexp q = Some [[0; 0]; [1; 0]] ∧ q_qexp_prec q = Some 1 ∧
       q_has_exact_qexp q = false.
Proof.
  eexists. split; [reflexivity|].
  destruct (load_eigenvalues_layout sample_row
              (AsIterator [mkRow 1 (Some [1; 0]); mkRow 2 None; mkRow 3 (Some [2; 2])])
              _ eq_refl) as [_ H].
  destruct (H eq_refl) as (dim & Hdim & Hq & Hp & _).
  injection Hdim as <-. split; [exact Hq|]. split; [exact Hp | reflexivity].
Defined.

(** * More on the construction *)

Lemma lift_inv {A} (r : result A) db asked a :
  lift r db = (asked, Ok a) → r = Ok a ∧ asked = [].
Proof. by intros [= <- ->]. Qed.

Lemma space_columns_other (row data : gmap string value) k :
  k ∉ space_columns →
  (filter (fun kv : string * value => kv.1 ∈ space_columns) row ∪ data) !! k = data !! k.
Proof.
  intros Hk. rewrite lookup_union_r; [done|].
  apply map_lookup_filter_None. right. intros v _. exact Hk.
Qed.

Section ConstructionMore.
Variable url_character : value → value → string.
Variable cremona_letter_code : Z → result string.

(** Everything a construction that succeeds went through. *)
Lemma init_inv data space db asked w :
  WebNewform_init url_character cremona_letter_code data space db = (asked, Ok w) →
  ∃ g attrs asked0 code q sl cc level twists orbit col label weight dim,
    from_db data = Ok g ∧
    match space with
    | None =>
        ∃ sl0 row, getattr data "space_label" = Ok sl0 ∧
          mf_newspaces db sl0 = Some row ∧
          attrs = filter (fun kv : string * value => kv.1 ∈ space_columns) row ∪ data ∧
          asked0 = [LookupNewspace sl0 space_columns]
    | Some sp =>
        attrs = <["cyc_degree" := space_cyc_degree sp]>
                  (<["conrey_labels" := space_conrey_labels sp]> data) ∧
        asked0 = []
    end ∧
    getattr attrs "hecke_orbit_code" = Ok code ∧
    load_eigenvalues attrs (mf_hecke_nf db code) = Ok q ∧
    getattr attrs "space_label" = Ok sl ∧
    item0 (default VNone (row ← mf_newspaces db sl; row !! "conrey_labels")) = Ok cc ∧
    getattr attrs "level" = Ok level ∧
    (v ← getattr attrs "inner_twist"; iterate v) = Ok twists ∧
    getattr attrs "char_orbit" = Ok orbit ∧
    derive_char_orbit_label cremona_letter_code level orbit = Ok col ∧
    getattr attrs "label" = Ok label ∧
    getattr attrs "weight" = Ok weight ∧
    getattr attrs "dim" = Ok dim ∧
    asked = (asked0 ++ [SearchHecke code; LookupNewspace sl ["conrey_labels"]])%list ∧
    w = mkWebNewform attrs data g
          (q_has_exact_qexp q) (q_qexp q) (q_qexp_prec q) cc
          ("\chi_{" +:+ py_str level +:+ "}(" +:+ py_str cc +:+ ",\cdot)")
          (url_character level cc)
          ((fun chi => (chi, url_character level chi)) <$> twists)
          col
          (if truthy (dict_get attrs "is_CM")
           then [("Label", label); ("Weight", VStr (py_str weight));
                 ("Character Orbit", VStr (py_str orbit));
                 ("Representative Character",
                  VStr ("\(" +:+ ("\chi_{" +:+ py_str level +:+ "}(" +:+ py_str cc
                                   +:+ ",\cdot)") +:+ "\)"));
                 ("Dimension", VStr (py_str dim));
                 ("CM", VStr (py_str (dict_get attrs "is_CM")))]
           else [("Label", label); ("Weight", VStr (py_str weight));
                 ("Character Orbit", VStr (py_str orbit));
                 ("Representative Character",
                  VStr ("\(" +:+ ("\chi_{" +:+ py_str level +:+ "}(" +:+ py_str cc
                                   +:+ ",\cdot)") +:+ "\)"));
                 ("Dimension", VStr (py_str dim))])
          [] ("Newform " +:+ py_str label) [].
Proof.
  unfold WebNewform_init. intros H.
  apply DB_bind_Ok in H as (a1 & g & ? & Hg & H & ->).
  apply lift_inv in Hg as [Hg ->].
  apply DB_bind_Ok in H as (asked0 & attrs & ? & Hattrs & H & ->).
  apply DB_bind_Ok in H as (? & code & ? & Hcode & H & ->).
  apply lift_inv in Hcode as [Hcode ->].
  apply DB_bind_Ok in H as (? & eigenvals & ? & Hsearch & H & ->).
  injection Hsearch as <- <-.
  apply DB_bind_Ok in H as (? & q & ? & Hq & H & ->).
  apply lift_inv in Hq as [Hq ->].
  apply DB_bind_Ok in H as (? & sl & ? & Hsl & H & ->).
  apply lift_inv in Hsl as [Hsl ->].
  apply DB_bind_Ok in H as (? & labels & ? & Hlabels & H & ->).
  injection Hlabels as <- <-.
  apply DB_bind_Ok in H as (? & cc & ? & Hcc & H & ->).
  apply lift_inv in Hcc as [Hcc ->].
  apply DB_bind_Ok in H as (? & level & ? & Hlevel & H & ->).
  apply lift_inv in Hlevel as [Hlevel ->].
  apply DB_bind_Ok in H as (? & twists & ? & Htw & H & ->).
  apply lift_inv in Htw as [Htw ->].
  apply DB_bind_Ok in H as (? & orbit & ? & Horbit & H & ->).
  apply lift_inv in Horbit as [Horbit ->].
  apply DB_bind_Ok in H as (? & col & ? & Hcol & H & ->).
  apply lift_inv in Hcol as [Hcol ->].
  apply DB_bind_Ok in H as (? & label & ? & Hlabel & H & ->).
  apply lift_inv in Hlabel as [Hlabel ->].
  apply DB_bind_Ok in H as (? & weight & ? & Hweight & H & ->).
  apply lift_inv in Hweight as [Hweight ->].
  apply DB_bind_Ok in H as (? & dim & ? & Hdim & H & ->).
  apply lift_inv in Hdim as [Hdim ->].
  injection H as <- <-.
  exists g, attrs, asked0, code, q, sl, cc, level, twists, orbit, col, label, weight, dim.
  split; [exact Hg|]. split.
  { destruct space as [sp|].
    - by injection Hattrs as <- <-.
    - apply DB_bind_Ok in Hattrs as (? & sl0 & ? & Hsl0 & Hattrs & ->).
      apply lift_inv in Hsl0 as [Hsl0 ->].
      apply DB_bind_Ok in Hattrs as (? & chardata & ? & Hlook & Hattrs & ->).
      injection Hlook as <- <-.
      destruct (mf_newspaces db sl0) as [row|] eqn:Hrow; [|discriminate Hattrs].
      injection Hattrs as <- <-.
      exists sl0, row. by repeat split. }
  repeat (split; [assumption|]).
  split; [by rewrite !app_nil_r|].
  by destruct (truthy (dict_get attrs "is_CM")).
Qed.
Lemma getattr_other (row data : gmap string value) k :
  k ∉ space_columns →
  getattr (filter (fun kv : string * value => kv.1 ∈ space_columns) row ∪ data) k
  = getattr data k.
Proof. intros Hk. unfold getattr. by rewrite space_columns_other. Qed.

Lemma not_space_column k :
  k ≠ "conrey_labels" → k ≠ "cyc_degree" → k ∉ space_columns.
Proof.
  intros H1 H2. unfold space_columns. rewrite !elem_of_cons, elem_of_nil. tauto.
Qed.

(** X11: the queries of a construction that succeeds.  Without a space
    object the store is asked three times, in this order: the two columns of
    the space row, the eigenvalue rows of the orbit, the Conrey labels of the
    space row again.  With a space object the first query is saved and the
    other two remain.  The table of newforms is never asked. *)
Theorem init_queries data space db asked w :
  WebNewform_init url_character cremona_letter_code data space db = (asked, Ok w) →
  ∃ sl code,
    getattr data "space_label" = Ok sl ∧
    getattr data "hecke_orbit_code" = Ok code ∧
    asked = ((match space with
              | None => [LookupNewspace sl space_columns]
              | Some _ => []
              end) ++ [SearchHecke code; LookupNewspace sl ["conrey_labels"]])%list.
Proof.
  intros H. apply init_inv in H
    as (g & attrs & asked0 & code & q & sl & cc & level & twists & orbit & col &
        label & weight & dim & _ & Hattrs & Hcode & _ & Hsl & _ & _ & _ & _ & _ &
        _ & _ & _ & -> & _).
  exists sl, code. destruct space as [sp|].
  - destruct Hattrs as [-> ->]. unfold getattr in *.
    rewrite !lookup_insert_ne in Hcode, Hsl by done. done.
  - destruct Hattrs as (sl0 & row & Hsl0 & _ & -> & ->).
    rewrite getattr_other in Hcode, Hsl by (by apply not_space_column).
    assert (sl0 = sl) as -> by congruence. done.
Qed.

(** X12: the record keeps the row it was built from: [_data] is the row, and
    a column of the row is an attribute with the value it has in the row
    unless the constructor assigns that name afterwards.  Among the names it
    assigns, conrey_labels and cyc_degree are taken from the space object
    when one is given and otherwise from the space row in the store, and
    inner_twist (line 114) is replaced by the pairs of a character of the
    row's list and its link. *)
Theorem init_keeps_columns data space db asked w :
  WebNewform_init url_character cremona_letter_code data space db = (asked, Ok w) →
  _data w = data ∧
  (∀ k, k ∉ space_columns → k ∉ assigned_attributes → __dict__ w !! k = data !! k) ∧
  (∃ level twists,
     getattr data "level" = Ok level ∧
     (v ← getattr data "inner_twist"; iterate v) = Ok twists ∧
     inner_twist w = (fun chi => (chi, url_character level chi)) <$> twists) ∧
  match space with
  | Some sp =>
      __dict__ w !! "conrey_labels" = Some (space_conrey_labels sp) ∧
      __dict__ w !! "cyc_degree" = Some (space_cyc_degree sp)
  | None =>
      ∃ sl row, getattr data "space_label" = Ok sl ∧ mf_newspaces db sl = Some row ∧
        ∀ k v, k ∈ space_columns → row !! k = Some v → __dict__ w !! k = Some v
  end.
Proof.
  intros H. apply init_inv in H
    as (g & attrs & asked0 & code & q & sl & cc & level & twists & orbit & col &
        label & weight & dim & _ & Hattrs & _ & _ & _ & _ & Hlevel & Htw & _ & _ &
        _ & _ & _ & _ & ->).
  cbn [_data __dict__ inner_twist]. split; [done|].
  assert (Hsame : ∀ k, k ∉ space_columns → attrs !! k = data !! k).
  { intros k Hk. destruct space as [sp|].
    - destruct Hattrs as [-> _]. unfold space_columns in Hk.
      rewrite !elem_of_cons, elem_of_nil in Hk.
      rewrite !lookup_insert_ne by (intros <-; tauto). done.
    - destruct Hattrs as (? & ? & _ & _ & -> & _). by apply space_columns_other. }
  split; [by intros k Hk _; apply Hsame|]. split.
  { exists level, twists. unfold getattr in *.
    rewrite !Hsame in Hlevel, Htw by (by apply not_space_column). done. }
  destruct space as [sp|].
  - destruct Hattrs as [-> _]. split.
    + by rewrite lookup_insert_ne, lookup_insert_eq.
    + by rewrite lookup_insert_eq.
  - destruct Hattrs as (sl0 & row & Hsl0 & Hrow & -> & _).
    exists sl0, row. split; [done|]. split; [done|].
    intros k v Hk Hv. apply lookup_union_Some_l.
    by apply map_lookup_filter_Some.
Qed.

Lemma from_db_balanced data g X :
  from_db data = Ok g → X ∈ grid_rows → row_balanced g X.
Proof.
  intros H HX. apply from_db_inv in H as (m & d & en & c & e & _ & _ & _ & _ & _ & ->).
  unfold grid_rows in HX. rewrite !elem_of_cons, elem_of_nil in HX.
  destruct HX as [-> | [-> | [-> | []]]].
  - exists m, (d + en), (m - d - en). repeat split; lia.
  - exists c, d, (c - d). repeat split; lia.
  - exists e, en, (e - en). repeat split; lia.
Qed.

(** X13: the [dim_grid] of a record is the grid [from_db] makes of its row:
    a 3x3 table with all = new + old in each row. *)
Theorem init_dim_grid data space db asked w :
  WebNewform_init url_character cremona_letter_code data space db = (asked, Ok w) →
  from_db data = Ok (dim_grid w) ∧
  is_table (dim_grid w) ∧
  ∀ X, X ∈ grid_rows → row_balanced (dim_grid w) X.
Proof.
  intros H. apply init_inv in H
    as (g & attrs & asked0 & code & q & sl & cc & level & twists & orbit & col &
        label & weight & dim & Hg & _ & _ & _ & _ & _ & _ & _ & _ & _ &
        _ & _ & _ & _ & ->).
  cbn [dim_grid]. split; [done|]. split.
  - apply from_db_inv in Hg as (? & ? & ? & ? & ? & _ & _ & _ & _ & _ & ->).
    apply table9_is_table.
  - intros X HX. by apply (from_db_balanced data).
Qed.

(** X14: the properties of a record are, in this order, Label, Weight,
    Character Orbit, Representative Character and Dimension, followed by CM
    exactly when the attribute is_CM is there and true; Label holds the label
    as it is stored, the others are text.  The title is "Newform " and the
    label; bread and friends are empty. *)
Theorem init_properties data space db asked w :
  WebNewform_init url_character cremona_letter_code data space db = (asked, Ok w) →
  ∃ label weight orbit dim,
    getattr (__dict__ w) "label" = Ok label ∧
    getattr (__dict__ w) "weight" = Ok weight ∧
    getattr (__dict__ w) "char_orbit" = Ok orbit ∧
    getattr (__dict__ w) "dim" = Ok dim ∧
    properties w =
      ([("Label", label); ("Weight", VStr (py_str weight));
        ("Character Orbit", VStr (py_str orbit));
        ("Representative Character", VStr ("\(" +:+ char_conrey_str w +:+ "\)"));
        ("Dimension", VStr (py_str dim))]
       ++ (if truthy (dict_get (__dict__ w) "is_CM")
           then [("CM", VStr (py_str (dict_get (__dict__ w) "is_CM")))]
           else []))%list ∧
    title w = "Newform " +:+ py_str label ∧
    bread w = [] ∧ friends w = [].
Proof.
  intros H. apply init_inv in H
    as (g & attrs & asked0 & code & q & sl & cc & level & twists & orbit & col &
        label & weight & dim & _ & _ & _ & _ & _ & _ & _ & _ & Horbit & _ &
        Hlabel & Hweight & Hdim & _ & ->).
  cbn [__dict__ properties title bread friends char_conrey_str].
  exists label, weight, orbit, dim. repeat (split; [assumption|]).
  split; [|done]. by destruct (truthy (dict_get attrs "is_CM")).
Qed.

(** X15: a record is built only when the store has the row of the space with
    a first Conrey label, also when a space object is given: [char_conrey] is
    that first label, and the typeset character, its link and the inner
    twists are made from it and from the level. *)
Theorem init_character data space db asked w :
  WebNewform_init url_character cremona_letter_code data space db = (asked, Ok w) →
  ∃ sl row labels level twists,
    getattr data "space_label" = Ok sl ∧
    mf_newspaces db sl = Some row ∧ row !! "conrey_labels" = Some labels ∧
    item0 labels = Ok (char_conrey w) ∧
    getattr data "level" = Ok level ∧
    char_conrey_str w
    = "\chi_{" +:+ py_str level +:+ "}(" +:+ py_str (char_conrey w) +:+ ",\cdot)" ∧
    char_conrey_link w = url_character level (char_conrey w) ∧
    (v ← getattr data "inner_twist"; iterate v) = Ok twists ∧
    inner_twist w = (fun chi => (chi, url_character level chi)) <$> twists.
Proof.
  intros H. apply init_inv in H
    as (g & attrs & asked0 & code & q & sl & cc & level & twists & orbit & col &
        label & weight & dim & _ & Hattrs & _ & _ & Hsl & Hcc & Hlevel & Htw & _ & _ &
        _ & _ & _ & _ & ->).
  cbn [char_conrey char_conrey_str char_conrey_link inner_twist].
  assert (Hsame : ∀ k, k ∉ space_columns → getattr attrs k = getattr data k).
  { intros k Hk. destruct space as [sp|].
    - destruct Hattrs as [-> _]. unfold getattr, space_columns in *.
      rewrite !elem_of_cons, elem_of_nil in Hk.
      rewrite !lookup_insert_ne by (intros <-; tauto). done.
    - destruct Hattrs as (? & ? & _ & _ & -> & _). by apply getattr_other. }
  rewrite !Hsame in * by (by apply not_space_column).
  destruct (mf_newspaces db sl) as [row|] eqn:Hrow; [|discriminate Hcc].
  cbn [mbind option_bind] in Hcc.
  destruct (row !! "conrey_labels") as [labels|] eqn:Hlabels; [|discriminate Hcc].
  exists sl, row, labels, level, twists. by repeat split.
Qed.

(** X16: the construction fails before the eigenvalue step when the row
    lacks a dimension column, with that exception and without a query; and
    when no space object is given and the store has no row for the space,
    with TypeError after the one query. *)
Theorem init_early_failures data space db :
  (∀ e, from_db data = Raise e →
     WebNewform_init url_character cremona_letter_code data space db = ([], Raise e)) ∧
  (∀ g sl, from_db data = Ok g → getattr data "space_label" = Ok sl →
     mf_newspaces db sl = None →
     WebNewform_init url_character cremona_letter_code data None db
     = ([LookupNewspace sl space_columns], Raise TypeError)).
Proof.
  split.
  - intros e He. unfold WebNewform_init, mbind, DB_bind, lift. by rewrite He.
  - intros g sl Hg Hsl Hrow.
    unfold WebNewform_init, mbind, DB_bind, lift, lookup_newspace, raise, lift.
    rewrite Hg, Hsl. cbn. rewrite Hrow. reflexivity.
Qed.

(** X17: [by_label] returns a record only for a label the validator accepts
    and the store holds; the record is built from that row, and the store is
    asked exactly four times: the newform, the columns of its space, the
    eigenvalue rows, the Conrey labels of the space. *)
Theorem by_label_found label db asked w :
  by_label url_character cremona_letter_code label db = (asked, Ok w) →
  ∃ data sl code,
    valid_label label = true ∧ mf_newforms db label = Some data ∧
    _data w = data ∧
    getattr data "space_label" = Ok sl ∧
    getattr data "hecke_orbit_code" = Ok code ∧
    asked = [LookupNewform label; LookupNewspace sl space_columns;
             SearchHecke code; LookupNewspace sl ["conrey_labels"]].
Proof.
  unfold by_label. destruct (valid_label label); [|discriminate].
  cbn [negb]. intros H.
  apply DB_bind_Ok in H as (? & o & asked' & Hlook & H & ->).
  injection Hlook as <- <-.
  destruct (mf_newforms db label) as [data|] eqn:Hdata; [|discriminate H].
  pose proof (init_inv _ _ _ _ _ H) as Hinv.
  destruct Hinv as (g & attrs & asked0 & code & q & sl & cc & level & twists & orbit &
        col & lab & weight & dim & _ & Hattrs & Hcode & _ & Hsl & _ & _ & _ & _ & _ &
        _ & _ & _ & -> & ->).
  destruct Hattrs as (sl0 & row & Hsl0 & _ & -> & ->).
  rewrite getattr_other in Hcode, Hsl by (by apply not_space_column).
  assert (sl0 = sl) as -> by congruence.
  exists data, sl, code. by repeat split.
Qed.
End ConstructionMore.

(** * The display methods *)

Lemma py_slice_to_nonneg {A} (l : list A) (stop : Z) :
  (0 ≤ stop)%Z → py_slice_to l stop = take (Z.to_nat stop) l.
Proof.
  intros H. unfold py_slice_to.
  destruct (Z.ltb_spec stop 0); [lia | done].
Qed.

Lemma py_slice_to_neg {A} (l : list A) (stop : Z) :
  (stop < 0)%Z → py_slice_to l stop = take (Z.to_nat (Z.of_nat (length l) + stop)) l.
Proof.
  intros H. unfold py_slice_to.
  destruct (Z.ltb_spec stop 0); [|lia].
  f_equal. lia.
Qed.

(** The coefficients the one-dimensional branch collects. *)
Lemma first_coordinates (l : list (list Z)) (k : nat) (acc : list Z) (n0 : nat) :
  (n0 + k ≤ length l)%nat →
  Forall (fun v => v ≠ []) l →
  ∃ coeffs,
    Forall2 (fun v c => head v = Some c) (take k (drop n0 l)) coeffs ∧
    for_each (seq n0 k)
      (fun acc n =>
         qexp ← attribute "qexp" (Some l);
         v ← list_item qexp n;
         c ← list_item v 0;
         Ok (acc ++ [c])%list) acc
    = Ok (acc ++ coeffs)%list.
Proof.
  revert acc n0. induction k as [|k IH]; intros acc n0 Hlen Hne.
  - exists []. split; [by rewrite take_0 | by rewrite app_nil_r].
  - destruct (lookup_lt_is_Some_2 l n0 ltac:(lia)) as [v Hv].
    assert (Hv0 : v ≠ []) by (rewrite Forall_lookup in Hne; by apply (Hne n0)).
    destruct v as [|c v]; [done|].
    destruct (IH (acc ++ [c])%list (S n0) ltac:(lia) Hne) as (coeffs & Hcoeffs & Hrun).
    exists (c :: coeffs). split.
    + rewrite (drop_S _ _ _ Hv). cbn [take]. by constructor.
    + cbn [seq]. rewrite for_each_cons.
      cbn [attribute mbind result_bind] in Hrun |- *.
      rewrite (list_item_Some _ _ _ Hv). cbn [mbind result_bind].
      rewrite (list_item_Some (c :: v) 0%nat c eq_refl). cbn [mbind result_bind].
      rewrite Hrun. by rewrite <- app_assoc.
Qed.

Section DisplayProofs.
Variable url_character : value → value → string.
Variable cremona_letter_code : Z → result string.
Variable latex : list Z → nat → string.
Variable series_latex : list Z → Z → string.
Variable trace_series_latex : string.
Variable nf_display_knowl : value → string → string.
Variable field_pretty : value → string.
Variable poly_latex : list Z → string.

(** What a record with an exact expansion holds, in the terms of
    [q_expansion]. *)
Lemma init_exact data space db asked w :
  WebNewform_init url_character cremona_letter_code data space db = (asked, Ok w) →
  has_exact_qexp w = true →
  ∃ dim l,
    (v ← getattr (__dict__ w) "dim"; as_int v) = Ok dim ∧
    qexp w = Some l ∧ l ≠ [] ∧
    qexp_prec w = Some (Z.of_nat (length l) - 1) ∧
    (dim = 1 → Forall (fun v => v ≠ []) l).
Proof.
  intros Hinit Hexact.
  apply init_eigenvalues in Hinit as (code & q & _ & Hload & Hb & Hq & Hp).
  rewrite Hb in Hexact.
  destruct (load_eigenvalues_exact _ _ _ Hload Hexact)
    as (dim & l & Hdim & Hl & H0 & Hlen & Hrows & Hprec).
  exists dim, l. rewrite Hq, Hp. split; [done|]. split; [done|].
  split; [by destruct l|]. split; [done|].
  intros ->. apply Forall_lookup. intros i v Hi ->.
  destruct i as [|i].
  - rewrite H0 in Hi. discriminate Hi.
  - assert (Hlt : (i < length (rows_of (mf_hecke_nf db code)))%nat).
    { apply lookup_lt_Some in Hi. lia. }
    destruct (lookup_lt_is_Some_2 _ _ Hlt) as [ev Hev].
    destruct (Hrows i ev Hev) as (_ & Han & Hne).
    rewrite Hi in Han. by apply Hne.
Qed.

(** [q_expansion] on a record whose attributes are set. *)
Lemma q_expansion_exact (self : WebNewform) l p d format prec_max :
  has_exact_qexp self = true → qexp self = Some l → qexp_prec self = Some p →
  getattr (__dict__ self) "dim" = Ok (VInt d) →
  q_expansion latex series_latex trace_series_latex self format prec_max
  = if Z.eqb d 1 then
      coeffs ← for_each
                 (seq 0 (Z.to_nat ((if String.eqb format "all" then p
                                    else Z.min p prec_max) + 1)))
                 (fun acc n =>
                    qexp ← attribute "qexp" (Some l);
                    v ← list_item qexp n;
                    c ← list_item v 0;
                    Ok (acc ++ [c])%list) [];
      Ok (series_latex coeffs
            (if String.eqb format "all" then p else Z.min p prec_max))
    else eigs_as_seqseq_to_qexp latex
           (py_slice_to l (if String.eqb format "all" then p else Z.min p prec_max)).
Proof.
  intros Hexact Hl Hp Hdim. unfold q_expansion.
  rewrite Hexact, Hp, Hl, Hdim.
  destruct (String.eqb format "all"); reflexivity.
Qed.

(** X18: for a record built with an exact expansion whose dimension is not
    1, [q_expansion] hands the formatter the vectors of q^0, q^1, ... of
    [qexp] below the precision: with format 'all' all of them but the last,
    so the vector of the last eigenvalue row is never typeset; with another
    format and a prec_max that is not negative the first min(qexp_prec,
    prec_max) of them; and a negative prec_max counts from the end, -1 giving
    what 'all' gives. *)
Theorem q_expansion_vectors data space db asked w dim :
  WebNewform_init url_character cremona_letter_code data space db = (asked, Ok w) →
  has_exact_qexp w = true →
  getattr (__dict__ w) "dim" = Ok (VInt dim) → dim ≠ 1 →
  ∃ l, qexp w = Some l ∧ l ≠ [] ∧
    (∀ prec_max,
       q_expansion latex series_latex trace_series_latex w "all" prec_max
       = eigs_as_seqseq_to_qexp latex (take (length l - 1) l)) ∧
    (∀ format prec_max, format ≠ "all" → (0 ≤ prec_max)%Z →
       q_expansion latex series_latex trace_series_latex w format prec_max
       = eigs_as_seqseq_to_qexp latex
           (take (Nat.min (length l - 1) (Z.to_nat prec_max)) l)) ∧
    (∀ format prec_max, format ≠ "all" → (prec_max < 0)%Z →
       q_expansion latex series_latex trace_series_latex w format prec_max
       = eigs_as_seqseq_to_qexp latex
           (take (length l - Z.to_nat (- prec_max)) l)).
Proof.
  intros Hinit Hexact Hdim Hne.
  destruct (init_exact _ _ _ _ _ Hinit Hexact) as (d & l & Hd & Hl & Hnil & Hp & _).
  rewrite Hdim in Hd. injection Hd as <-.
  exists l. split; [done|]. split; [done|].
  assert (Hlen : (0 < length l)%nat) by (destruct l; [done | simpl; lia]).
  split; [|split].
  - intros prec_max.
    rewrite (q_expansion_exact w l _ dim "all" prec_max Hexact Hl Hp Hdim).
    apply Z.eqb_neq in Hne. rewrite Hne, String.eqb_refl.
    rewrite py_slice_to_nonneg by lia. do 2 f_equal. lia.
  - intros format prec_max Hfmt Hpm.
    rewrite (q_expansion_exact w l _ dim format prec_max Hexact Hl Hp Hdim).
    apply Z.eqb_neq in Hne. apply String.eqb_neq in Hfmt. rewrite Hne, Hfmt.
    rewrite py_slice_to_nonneg by lia. do 2 f_equal. lia.
  - intros format prec_max Hfmt Hpm.
    rewrite (q_expansion_exact w l _ dim format prec_max Hexact Hl Hp Hdim).
    apply Z.eqb_neq in Hne. apply String.eqb_neq in Hfmt. rewrite Hne, Hfmt.
    replace (Z.min (Z.of_nat (length l) - 1) prec_max) with prec_max by lia.
    rewrite py_slice_to_neg by lia. do 2 f_equal. lia.
Qed.

(** X19: for a record built with an exact expansion of dimension 1,
    [q_expansion] never raises: it typesets the series of the first
    coordinates of the vectors of q^0 up to q^prec, prec included, where prec
    is [qexp_prec] with format 'all' and min(qexp_prec, prec_max)
    otherwise. *)
Theorem q_expansion_series data space db asked w :
  WebNewform_init url_character cremona_letter_code data space db = (asked, Ok w) →
  has_exact_qexp w = true →
  getattr (__dict__ w) "dim" = Ok (VInt 1) →
  ∃ l qexp_prec, qexp w = Some l ∧ Z.of_nat (length l) = qexp_prec + 1 ∧
    ∀ format prec_max,
      let prec := if String.eqb format "all" then qexp_prec
                  else Z.min qexp_prec prec_max in
      ∃ coeffs,
        Forall2 (fun v c => head v = Some c) (take (Z.to_nat (prec + 1)) l) coeffs ∧
        q_expansion latex series_latex trace_series_latex w format prec_max
        = Ok (series_latex coeffs prec).
Proof.
  intros Hinit Hexact Hdim.
  destruct (init_exact _ _ _ _ _ Hinit Hexact) as (d & l & Hd & Hl & Hnil & Hp & Hvec).
  rewrite Hdim in Hd. injection Hd as <-. specialize (Hvec eq_refl).
  assert (Hlen : (0 < length l)%nat) by (destruct l; [done | simpl; lia]).
  exists l, (Z.of_nat (length l) - 1). split; [done|]. split; [lia|].
  intros format prec_max prec.
  destruct (first_coordinates l (Z.to_nat (prec + 1)) [] 0) as (coeffs & Hcoeffs & Hrun);
    [unfold prec; destruct (String.eqb format "all"); lia | done |].
  exists coeffs. split; [by rewrite drop_0 in Hcoeffs|].
  rewrite (q_expansion_exact w l _ 1 format prec_max Hexact Hl Hp Hdim).
  change (Z.eqb 1 1) with true. cbv iota. fold prec.
  rewrite Hrun. reflexivity.
Qed.
(** X20: [field_display] never raises.  For a field label that is there and
    is not "1.1.1.1" it returns \(\Q(\nu)\) = followed by what [field_knowl]
    returns, which is the knowl of the label under its pretty name, or
    "Not in LMFDB" when the label is false in a condition (the empty text). *)
Theorem field_display_total (self : WebNewform) :
  (∃ s, field_display nf_display_knowl field_pretty self = Ok s) ∧
  (∀ label, __dict__ self !! "nf_label" = Some label →
     label ≠ VNone → label ≠ VStr "1.1.1.1" →
     field_display nf_display_knowl field_pretty self
     = Ok ("\(\Q(\nu)\) = " +:+ field_knowl nf_display_knowl field_pretty self) ∧
     field_knowl nf_display_knowl field_pretty self
     = if truthy label then nf_display_knowl label (field_pretty label)
       else "Not in LMFDB").
Proof.
  split.
  - unfold field_display, dict_get, getattr.
    destruct (__dict__ self !! "nf_label") as [label|]; cbn [default from_option id].
    + destruct (bool_decide (label = VNone)); [by eexists|].
      destruct (bool_decide (label = VStr "1.1.1.1")); by eexists.
    + by eexists.
  - intros label Hlabel Hnone Hrat.
    unfold field_display, field_knowl, dict_get. rewrite Hlabel.
    cbn [default from_option id].
    by rewrite !bool_decide_eq_false_2 by done.
Qed.

(** X21: [cm_field_knowl] raises AttributeError when the record has no
    cm_disc, ValueError("Not CM") when cm_disc is 0, and for any other
    integer d returns the knowl of the field labelled 2.0.(-d).1, whatever the
    sign of d. *)
Theorem cm_field_knowl_cases (self : WebNewform) :
  (__dict__ self !! "cm_disc" = None →
     cm_field_knowl nf_display_knowl field_pretty self
     = Raise (AttributeError "cm_disc")) ∧
  (__dict__ self !! "cm_disc" = Some (VInt 0) →
     cm_field_knowl nf_display_knowl field_pretty self = Raise (ValueError "Not CM")) ∧
  (∀ d, d ≠ 0 → __dict__ self !! "cm_disc" = Some (VInt d) →
     cm_field_knowl nf_display_knowl field_pretty self
     = Ok (nf_display_knowl (VStr ("2.0." +:+ str_int (- d) +:+ ".1"))
             (field_pretty (VStr ("2.0." +:+ str_int (- d) +:+ ".1"))))) ∧
  (∀ s, cm_field_knowl nf_display_knowl field_pretty self = Ok s →
     ∃ v d, __dict__ self !! "cm_disc" = Some v ∧ as_int v = Ok d ∧ d ≠ 0).
Proof.
  unfold cm_field_knowl, getattr.
  split; [|split; [|split]].
  - by intros ->.
  - by intros ->.
  - intros d Hd ->. cbn [mbind result_bind eq_int as_int].
    apply Z.eqb_neq in Hd. by rewrite Hd.
  - intros s. destruct (__dict__ self !! "cm_disc") as [v|]; [|done].
    cbn [mbind result_bind]. destruct v as [|b|z| |]; cbn [eq_int as_int mbind result_bind];
      try done.
    + destruct b; [|done]. intros _. by exists (VBool true), 1.
    + destruct (Z.eqb_spec z 0); [done|]. intros _. by exists (VInt z), z.
Qed.

(** X22: with Conrey labels l and a positive cyc_degree c, the embeddings
    1 .. c*len(l) get the labels in blocks of c: embedding m gets the label
    at index (m-1)//c.  An embedding number beyond c*len(l) raises
    IndexError.  Embedding numbers from 0 down to 1 - c*len(l) raise nothing:
    the index is negative and counts from the end, so 0 gets the last
    label. *)
Theorem conrey_from_embedding_blocks (self : WebNewform) (l : list Z) (c m : Z) :
  __dict__ self !! "conrey_labels" = Some (VInts l) →
  __dict__ self !! "cyc_degree" = Some (VInt c) →
  (0 < c)%Z →
  ((1 ≤ m ≤ c * Z.of_nat (length l))%Z →
     ∃ x, l !! Z.to_nat ((m - 1) / c) = Some x ∧
          conrey_from_embedding self m = Returns (VInt x)) ∧
  ((c * Z.of_nat (length l) < m)%Z →
     conrey_from_embedding self m = Raises IndexError) ∧
  ((- c * Z.of_nat (length l) < m ≤ 0)%Z →
     ∃ x, l !! Z.to_nat (Z.of_nat (length l) + (m - 1) / c) = Some x ∧
          conrey_from_embedding self m = Returns (VInt x)) ∧
  ((m ≤ - c * Z.of_nat (length l))%Z →
     conrey_from_embedding self m = Raises IndexError).
Proof.
  intros Hl Hc Hpos.
  assert (Hrun : conrey_from_embedding self m
                 = of_result (x ← py_index l ((m - 1) / c); Ok (VInt x))).
  { unfold conrey_from_embedding, getattr. rewrite Hl, Hc.
    cbn [mbind result_bind as_int].
    destruct (Z.eqb_spec c 0); [lia | reflexivity]. }
  rewrite Hrun. unfold py_index.
  split; [|split; [|split]].
  - intros Hm.
    assert (0 ≤ (m - 1) / c < Z.of_nat (length l))%Z as Hi.
    { split; [apply Z.div_pos; lia | apply Z.div_lt_upper_bound; lia]. }
    destruct (Z.ltb_spec ((m - 1) / c) 0); [lia|].
    destruct (Z.ltb_spec ((m - 1) / c) 0); [lia|].
    destruct (lookup_lt_is_Some_2 l (Z.to_nat ((m - 1) / c)) ltac:(lia)) as [x Hx].
    exists x. split; [done|]. by rewrite (list_item_Some _ _ _ Hx).
  - intros Hm.
    assert (Z.of_nat (length l) ≤ (m - 1) / c)%Z as Hi.
    { apply Z.div_le_lower_bound; lia. }
    destruct (Z.ltb_spec ((m - 1) / c) 0); [lia|].
    destruct (Z.ltb_spec ((m - 1) / c) 0); [lia|].
    unfold list_item. rewrite lookup_ge_None_2 by lia. reflexivity.
  - intros Hm.
    assert (- Z.of_nat (length l) ≤ (m - 1) / c < 0)%Z as Hi.
    { split; [apply Z.div_le_lower_bound; lia | apply Z.div_lt_upper_bound; lia]. }
    destruct (Z.ltb_spec ((m - 1) / c) 0); [|lia].
    destruct (Z.ltb_spec ((m - 1) / c + Z.of_nat (length l)) 0); [lia|].
    replace ((m - 1) / c + Z.of_nat (length l))%Z
      with (Z.of_nat (length l) + (m - 1) / c)%Z by lia.
    destruct (lookup_lt_is_Some_2 l (Z.to_nat (Z.of_nat (length l) + (m - 1) / c))
                ltac:(lia)) as [x Hx].
    exists x. split; [done|]. by rewrite (list_item_Some _ _ _ Hx).
  - intros Hm.
    assert ((m - 1) / c < - Z.of_nat (length l))%Z as Hi.
    { apply Z.div_lt_upper_bound; lia. }
    destruct (Z.ltb_spec ((m - 1) / c) 0); [|lia].
    destruct (Z.ltb_spec ((m - 1) / c + Z.of_nat (length l)) 0); [|lia].
    reflexivity.
Qed.

(** X23: with cyc_degree 0 [conrey_from_embedding] raises ZeroDivisionError
    for every embedding number, whatever the Conrey labels are; without the
    attribute conrey_labels or cyc_degree it raises AttributeError. *)
Theorem conrey_from_embedding_errors (self : WebNewform) (m : Z) :
  (∀ labels, __dict__ self !! "conrey_labels" = Some labels →
     __dict__ self !! "cyc_degree" = Some (VInt 0) →
     conrey_from_embedding self m = RaisesZeroDivisionError) ∧
  (__dict__ self !! "conrey_labels" = None →
     conrey_from_embedding self m = Raises (AttributeError "conrey_labels")) ∧
  (∀ labels, __dict__ self !! "conrey_labels" = Some labels →
     __dict__ self !! "cyc_degree" = None →
     conrey_from_embedding self m = Raises (AttributeError "cyc_degree")) ∧
  (conrey_from_embedding self m = RaisesZeroDivisionError →
     ∃ v, __dict__ self !! "cyc_degree" = Some v ∧ as_int v = Ok 0).
Proof.
  unfold conrey_from_embedding, getattr.
  split; [|split; [|split]].
  - by intros labels -> ->.
  - by intros ->.
  - by intros labels -> ->.
  - destruct (__dict__ self !! "conrey_labels") as [labels|]; [|done].
    destruct (__dict__ self !! "cyc_degree") as [v|]; [|done].
    cbn [mbind result_bind].
    destruct (as_int v) as [c|] eqn:Hv; [|done].
    destruct (Z.eqb_spec c 0) as [-> | Hc]; [intros _; by exists v|].
    unfold of_result. by destruct (value_index _ _).
Qed.

Lemma zip_take_min {A B} (l : list A) (k : list B) :
  zip l k = zip (take (Nat.min (length l) (length k)) l)
                (take (Nat.min (length l) (length k)) k).
Proof.
  revert k. induction l as [|x l IH]; intros [|y k]; try done.
  cbn [length Nat.min take zip zip_with]. f_equal. apply IH.
Qed.

Lemma unit_denominators (nums : list string) :
  (fun '(num, den) =>
     if Z.eqb den 1 then num
     else "\frac{" +:+ num +:+ "}{" +:+ str_int den +:+ "}")
    <$> zip nums (replicate (length nums) 1)
  = nums.
Proof. induction nums as [|x nums IH]; [done|]. cbn. by rewrite IH. Qed.

(** X24: [order_basis] pairs numerators and denominators as far as both
    lists go and drops what is left of the longer one, so with no numerator
    or no denominator it returns the empty text; and when every denominator
    is 1 no fraction is typeset: entry i is \(\beta_{i} = numerator\), with i
    counted from 0. *)
Theorem order_basis_pairs (numerators : list (list Z)) (denominators : list Z) :
  order_basis poly_latex numerators denominators
  = order_basis poly_latex
      (take (Nat.min (length numerators) (length denominators)) numerators)
      (take (Nat.min (length numerators) (length denominators)) denominators) ∧
  order_basis poly_latex [] denominators = "" ∧
  order_basis poly_latex numerators [] = "" ∧
  order_basis poly_latex numerators (replicate (length numerators) 1)
  = String.concat ", "
      (imap (fun i num =>
               "\(\beta_{" +:+ str_int (Z.of_nat i) +:+ "} = " +:+ poly_latex num +:+ "\)")
            numerators).
Proof.
  split; [|split; [|split]].
  - unfold order_basis.
    rewrite (zip_take_min (poly_latex <$> numerators) denominators).
    by rewrite length_fmap, fmap_take.
  - reflexivity.
  - unfold order_basis. by destruct numerators.
  - unfold order_basis.
    rewrite <- (length_fmap poly_latex numerators) at 1.
    rewrite unit_denominators. by rewrite imap_fmap.
Qed.
End DisplayProofs.

(** * Runs on the sample data *)

Lemma init_queries_witness :
  ∃ sl code,
    getattr sample_row "space_label" = Ok sl ∧
    getattr sample_row "hecke_orbit_code" = Ok code ∧
    sample_built_in_space.1 = [SearchHecke code; LookupNewspace sl ["conrey_labels"]].
Proof.
  exact (init_queries url_plain cremona_letter_code sample_row (Some sample_space) sample_db
           (sample_built_in_space.1) (built_record sample_built_in_space)
           ltac:(vm_compute; reflexivity)).
Defined.

Lemma init_keeps_columns_witness :
  _data (built_record sample_built_in_space) = sample_row ∧
  (∀ k, k ∉ space_columns → k ∉ assigned_attributes →
        __dict__ (built_record sample_built_in_space) !! k = sample_row !! k) ∧
  (∃ level twists,
     getattr sample_row "level" = Ok level ∧
     (v ← getattr sample_row "inner_twist"; iterate v) = Ok twists ∧
     inner_twist (built_record sample_built_in_space)
     = (fun chi => (chi, url_plain level chi)) <$> twists) ∧
  __dict__ (built_record sample_built_in_space) !! "conrey_labels" = Some (VInts [1]) ∧
  __dict__ (built_record sample_built_in_space) !! "cyc_degree" = Some (VInt 1).
Proof.
  exact (init_keeps_columns url_plain cremona_letter_code sample_row (Some sample_space)
           sample_db (sample_built_in_space.1) (built_record sample_built_in_space)
           ltac:(vm_compute; reflexivity)).
Defined.

Lemma init_dim_grid_witness :
  from_db sample_row = Ok (dim_grid (built_record sample_built)) ∧
  is_table (dim_grid (built_record sample_built)) ∧
  ∀ X, X ∈ grid_rows → row_balanced (dim_grid (built_record sample_built)) X.
Proof.
  exact (init_dim_grid url_plain cremona_letter_code sample_row None sample_db
           (sample_built.1) (built_record sample_built)
           ltac:(vm_compute; reflexivity)).
Defined.

Lemma init_properties_witness :
  ∃ label weight orbit dim,
    getattr (__dict__ (built_record sample_built_1)) "label" = Ok label ∧
    getattr (__dict__ (built_record sample_built_1)) "weight" = Ok weight ∧
    getattr (__dict__ (built_record sample_built_1)) "char_orbit" = Ok orbit ∧
    getattr (__dict__ (built_record sample_built_1)) "dim" = Ok dim ∧
    properties (built_record sample_built_1) =
      ([("Label", label); ("Weight", VStr (py_str weight));
        ("Character Orbit", VStr (py_str orbit));
        ("Representative Character",
         VStr ("\(" +:+ char_conrey_str (built_record sample_built_1) +:+ "\)"));
        ("Dimension", VStr (py_str dim))]
       ++ (if truthy (dict_get (__dict__ (built_record sample_built_1)) "is_CM")
           then [("CM", VStr (py_str (dict_get (__dict__ (built_record sample_built_1))
                                                "is_CM")))]
           else []))%list ∧
    title (built_record sample_built_1) = "Newform " +:+ py_str label ∧
    bread (built_record sample_built_1) = [] ∧
    friends (built_record sample_built_1) = [].
Proof.
  exact (init_properties url_plain cremona_letter_code sample_row_1 None sample_db_1
           (sample_built_1.1) (built_record sample_built_1)
           ltac:(vm_compute; reflexivity)).
Defined.

Lemma init_character_witness :
  ∃ sl row labels level twists,
    getattr sample_row "space_label" = Ok sl ∧
    mf_newspaces sample_db sl = Some row ∧ row !! "conrey_labels" = Some labels ∧
    item0 labels = Ok (char_conrey (built_record sample_built_in_space)) ∧
    getattr sample_row "level" = Ok level ∧
    char_conrey_str (built_record sample_built_in_space)
    = "\chi_{" +:+ py_str level +:+ "}("
        +:+ py_str (char_conrey (built_record sample_built_in_space)) +:+ ",\cdot)" ∧
    char_conrey_link (built_record sample_built_in_space)
    = url_plain level (char_conrey (built_record sample_built_in_space)) ∧
    (v ← getattr sample_row "inner_twist"; iterate v) = Ok twists ∧
    inner_twist (built_record sample_built_in_space)
    = (fun chi => (chi, url_plain level chi)) <$> twists.
Proof.
  exact (init_character url_plain cremona_letter_code sample_row (Some sample_space) sample_db
           (sample_built_in_space.1) (built_record sample_built_in_space)
           ltac:(vm_compute; reflexivity)).
Defined.

Lemma init_early_failures_witness :
  WebNewform_init url_plain cremona_letter_code ∅ None sample_db
  = ([], Raise (KeyError "mf_dim")) ∧
  WebNewform_init url_plain cremona_letter_code sample_row_no_space None sample_db
  = ([LookupNewspace (VStr "99.2.a") space_columns], Raise TypeError).
Proof.
  split.
  - destruct (init_early_failures url_plain cremona_letter_code ∅ None sample_db) as [H _].
    apply H. reflexivity.
  - destruct (init_early_failures url_plain cremona_letter_code sample_row_no_space None sample_db)
      as [_ H].
    eapply H; reflexivity.
Defined.

Lemma by_label_found_witness :
  ∃ data sl code,
    valid_label "11.2.a.a" = true ∧ mf_newforms sample_db "11.2.a.a" = Some data ∧
    _data (built_record sample_found) = data ∧
    getattr data "space_label" = Ok sl ∧
    getattr data "hecke_orbit_code" = Ok code ∧
    sample_found.1 = [LookupNewform "11.2.a.a"; LookupNewspace sl space_columns;
                      SearchHecke code; LookupNewspace sl ["conrey_labels"]].
Proof.
  exact (by_label_found url_plain cremona_letter_code "11.2.a.a" sample_db
           (sample_found.1) (built_record sample_found)
           ltac:(vm_compute; reflexivity)).
Defined.

Lemma q_expansion_vectors_witness :
  ∃ l, qexp (built_record sample_built) = Some l ∧ l ≠ [] ∧
    (∀ prec_max,
       q_expansion latex_plain series_plain trace_plain (built_record sample_built)
         "all" prec_max
       = eigs_as_seqseq_to_qexp latex_plain (take (length l - 1) l)) ∧
    (∀ format prec_max, format ≠ "all" → (0 ≤ prec_max)%Z →
       q_expansion latex_plain series_plain trace_plain (built_record sample_built)
         format prec_max
       = eigs_as_seqseq_to_qexp latex_plain
           (take (Nat.min (length l - 1) (Z.to_nat prec_max)) l)) ∧
    (∀ format prec_max, format ≠ "all" → (prec_max < 0)%Z →
       q_expansion latex_plain series_plain trace_plain (built_record sample_built)
         format prec_max
       = eigs_as_seqseq_to_qexp latex_plain
           (take (length l - Z.to_nat (- prec_max)) l)).
Proof.
  exact (q_expansion_vectors url_plain cremona_letter_code latex_plain series_plain trace_plain
           sample_row None sample_db (sample_built.1) (built_record sample_built) 2
           ltac:(vm_compute; reflexivity) ltac:(reflexivity) ltac:(reflexivity)
           ltac:(discriminate)).
Defined.

Lemma q_expansion_series_witness :
  ∃ l qexp_prec,
    qexp (built_record sample_built_1) = Some l ∧
    Z.of_nat (length l) = qexp_prec + 1 ∧
    ∀ format prec_max,
      let prec := if String.eqb format "all" then qexp_prec
                  else Z.min qexp_prec prec_max in
      ∃ coeffs,
        Forall2 (fun v c => head v = Some c) (take (Z.to_nat (prec + 1)) l) coeffs ∧
        q_expansion latex_plain series_plain trace_plain (built_record sample_built_1)
          format prec_max
        = Ok (series_plain coeffs prec).
Proof.
  exact (q_expansion_series url_plain cremona_letter_code latex_plain series_plain trace_plain
           sample_row_1 None sample_db_1 (sample_built_1.1) (built_record sample_built_1)
           ltac:(vm_compute; reflexivity) ltac:(reflexivity) ltac:(reflexivity)).
Defined.

Lemma field_display_total_witness :
  field_display knowl_plain pretty_plain (bare_newform (<["nf_label" := VStr ""]> ∅))
  = Ok "\(\Q(\nu)\) = Not in LMFDB".
Proof.
  destruct (field_display_total knowl_plain pretty_plain
              (bare_newform (<["nf_label" := VStr ""]> ∅))) as [_ H].
  destruct (H (VStr "") eq_refl ltac:(discriminate) ltac:(discriminate)) as [-> ->].
  reflexivity.
Defined.

Lemma cm_field_knowl_cases_witness :
  cm_field_knowl knowl_plain pretty_plain (bare_newform ∅)
  = Raise (AttributeError "cm_disc") ∧
  cm_field_knowl knowl_plain pretty_plain (bare_newform (<["cm_disc" := VInt 0]> ∅))
  = Raise (ValueError "Not CM") ∧
  cm_field_knowl knowl_plain pretty_plain (bare_newform (<["cm_disc" := VInt (-7)]> ∅))
  = Ok "2.0.7.1 [2.0.7.1]".
Proof.
  split; [|split].
  - destruct (cm_field_knowl_cases knowl_plain pretty_plain (bare_newform ∅)) as [H _].
    apply H. reflexivity.
  - destruct (cm_field_knowl_cases knowl_plain pretty_plain
                (bare_newform (<["cm_disc" := VInt 0]> ∅))) as (_ & H & _).
    apply H. reflexivity.
  - destruct (cm_field_knowl_cases knowl_plain pretty_plain
                (bare_newform (<["cm_disc" := VInt (-7)]> ∅))) as (_ & _ & H & _).
    rewrite (H (-7)); [reflexivity | discriminate | reflexivity].
Defined.

Lemma conrey_from_embedding_blocks_witness :
  conrey_from_embedding sample_embedded 4 = Returns (VInt 5) ∧
  conrey_from_embedding sample_embedded 9 = Raises IndexError ∧
  conrey_from_embedding sample_embedded 0 = Returns (VInt 11).
Proof.
  split; [|split].
  - destruct (conrey_from_embedding_blocks sample_embedded [1; 5; 7; 11] 2 4
                eq_refl eq_refl ltac:(lia)) as [H _].
    destruct H as (x & Hx & ->); [simpl; lia|]. by injection Hx as <-.
  - destruct (conrey_from_embedding_blocks sample_embedded [1; 5; 7; 11] 2 9
                eq_refl eq_refl ltac:(lia)) as (_ & H & _).
    apply H. simpl. lia.
  - destruct (conrey_from_embedding_blocks sample_embedded [1; 5; 7; 11] 2 0
                eq_refl eq_refl ltac:(lia)) as (_ & _ & H & _).
    destruct H as (x & Hx & ->); [simpl; lia|]. by injection Hx as <-.
Defined.

Lemma conrey_from_embedding_errors_witness :
  conrey_from_embedding
    (bare_newform (<["conrey_labels" := VNone]> (<["cyc_degree" := VInt 0]> ∅))) 1
  = RaisesZeroDivisionError ∧
  conrey_from_embedding (bare_newform ∅) 1 = Raises (AttributeError "conrey_labels").
Proof.
  split.
  - destruct (conrey_from_embedding_errors
                (bare_newform (<["conrey_labels" := VNone]> (<["cyc_degree" := VInt 0]> ∅)))
                1) as [H _].
    apply (H VNone); reflexivity.
  - destruct (conrey_from_embedding_errors (bare_newform ∅) 1) as (_ & H & _).
    apply H. reflexivity.
Defined.
